(** * The automation engine: rule matching and action dispatch

    A shallow embedding of [replacePlaceholders], [processAutomations] and
    [executeAction] (the engine part of src/components/AutomationPage.tsx)
    with the [Automation] type of types.ts, and the properties of the
    engine that the specification states.

    - [JS]: what the engine uses of the JavaScript runtime: binary64
      numbers, truthiness, [||] and [?.], [String.prototype.replace] with
      a global regular expression, [Number.prototype.toFixed], the delay
      of a timer.
    - [Types]: the data model, and the properties of a payload that the
      engine reads.
    - [Effects]: function bodies as trees of effects (console output,
      calls of handlers and of [fetch], [await]), and their runs.
    - [Engine]: the three functions, named and laid out as in the source.
    - [Page]: how the page describes, counts and toggles a rule.
    - [Spec]: the conditions and the substitution as the specification
      words them, and the conditions with NaN taken into account.
    - [Examples], [More], [MoreExamples]: concrete rules, payloads and
      handlers, and further notions for stating what the code does.
    - [Numbers], [Strings], [Matcher], [Actions], [Placeholders], [Pass],
      [MoreActions], [MorePass], [MorePlaceholders], [MorePage]: the
      properties. *)

From Stdlib Require Import ZArith NArith List String Ascii Bool Lia.
From Stdlib Require Import DecimalString.
From Stdlib Require Import Floats.SpecFloat.
Import ListNotations.

Local Open Scope string_scope.

(* ===================================================================== *)
(** ** The JavaScript runtime, as far as the engine uses it *)
(* ===================================================================== *)

Module JS.

(** Values that can be thrown inside the engine. *)
Inductive error : Type :=
| TypeError_read (prop : string)  (* reading [prop] of undefined or null *)
| TypeError_in (prop : string)    (* [prop in x] with x undefined or null *)
| Raised (reason : string).       (* thrown, or rejected with, by a handler *)

(** The completion of a synchronous computation. *)
Inductive result (A : Type) : Type :=
| Ok (a : A)
| Throw (e : error).
Arguments Ok {A} a.
Arguments Throw {A} e.

Definition bind {A B} (r : result A) (f : A -> result B) : result B :=
  match r with
  | Ok a => f a
  | Throw e => Throw e
  end.

(** *** Numbers: IEEE 754 binary64 *)

Definition number : Type := spec_float.
Definition prec : Z := 53.
Definition emax : Z := 1024.

(** The number denoted by an integer literal. *)
Definition num (z : Z) : number := binary_normalize prec emax z 0 false.

(** [499.99] is not a binary64 value; the literal denotes the nearest one,
    0x1.f3fd70a3d70a4p+8 = 8795917100347556 * 2^-44. *)
Definition num_499_99 : number := S754_finite false 8795917100347556 (-44).

Definition is_nan (x : number) : bool :=
  match x with S754_nan => true | _ => false end.

(** ToBoolean on a number: +0, -0 and NaN are falsy. *)
Definition truthy_number (x : number) : bool :=
  match x with
  | S754_zero _ | S754_nan => false
  | _ => true
  end.

(** ToBoolean on a string: only the empty string is falsy. *)
Definition truthy_string (s : string) : bool := negb (s =? "").

(** ToBoolean on an optional value: undefined is falsy. *)
Definition truthy {A} (t : A -> bool) (o : option A) : bool :=
  match o with Some a => t a | None => false end.

(** The relational operators on numbers; each is false when an operand
    is NaN. *)
Definition lt (x y : number) : bool := SFltb x y.
Definition gt (x y : number) : bool := SFltb y x.
Definition le (x y : number) : bool := SFleb x y.
Definition ge (x y : number) : bool := SFleb y x.

Definition mul (x y : number) : number := SFmul prec emax x y.

(** [a?.f]: undefined when [a] is undefined. *)
Definition chain {A B} (o : option A) (f : A -> option B) : option B :=
  match o with Some a => f a | None => None end.

(** [a || b] where [b] may be undefined too. *)
Definition or_opt (a b : option string) : option string :=
  if truthy truthy_string a then a else b.

(** [a || b] where [b] is a string. *)
Definition or_str (a : option string) (b : string) : string :=
  match a with
  | Some s => if truthy_string s then s else b
  | None => b
  end.

(** [a || b] on numbers, [b] a number. *)
Definition or_num (a : option number) (b : number) : number :=
  match a with
  | Some x => if truthy_number x then x else b
  | None => b
  end.

(** *** Strings *)

Fixpoint drop (n : nat) (s : string) : string :=
  match n, s with
  | O, _ => s
  | S n', String _ s' => drop n' s'
  | S _, EmptyString => EmptyString
  end.

Fixpoint zeros (n : nat) : string :=
  match n with O => "" | S n' => String "0" (zeros n') end.

(** GetSubstitution for a regular expression without capture groups:
    [$$] is a dollar sign, [$&] the matched text, [$`] the text before the
    match, [$'] the text after it; any other [$] stands for itself. *)
Fixpoint GetSubstitution (matched before after template : string) : string :=
  match template with
  | EmptyString => EmptyString
  | String c rest =>
    if Ascii.eqb c "$" then
      match rest with
      | String d rest' =>
        if Ascii.eqb d "$" then String "$" (GetSubstitution matched before after rest')
        else if Ascii.eqb d "&" then matched ++ GetSubstitution matched before after rest'
        else if Ascii.eqb d "`" then before ++ GetSubstitution matched before after rest'
        else if Ascii.eqb d "'" then after ++ GetSubstitution matched before after rest'
        else String "$" (GetSubstitution matched before after rest)
      | EmptyString => String "$" EmptyString
      end
    else String c (GetSubstitution matched before after rest)
  end.

(** [s.replace(/pat/g, replacement)] for a pattern [pat] that matches one
    literal, non-empty string: the matches are found left to right and do
    not overlap. [before] is the part of the subject already scanned and
    [skip] counts the characters of the current match still to pass. *)
Fixpoint replace_from (pat replacement before : string) (skip : nat)
    (s : string) : string :=
  match s with
  | EmptyString => EmptyString
  | String c s' =>
    match skip with
    | S k => replace_from pat replacement (before ++ String c "") k s'
    | O =>
      if prefix pat s then
        GetSubstitution pat before (drop (length pat) s) replacement
          ++ replace_from pat replacement (before ++ String c "")
               (length pat - 1) s'
      else
        String c (replace_from pat replacement (before ++ String c "") 0 s')
    end
  end.

Definition replace (pat replacement s : string) : string :=
  replace_from pat replacement "" 0 s.

(** *** Number.prototype.toFixed(2) *)

Section ToFixed.

(** Number::toString. [toFixed] falls back to it for magnitudes of at
    least 10^21, where its last digit is left to the implementation. *)
Variable Number_toString : number -> string.

(** [m * 2^e >= 10^21]. *)
Definition at_least_1e21 (m : positive) (e : Z) : bool :=
  if (0 <=? e)%Z then (10 ^ 21 <=? Z.pos m * 2 ^ e)%Z
  else (10 ^ 21 * 2 ^ (- e) <=? Z.pos m)%Z.

(** The integer [n] for which [n / 100 - m * 2^e] is closest to zero, the
    larger one when there are two. *)
Definition hundredths (m : positive) (e : Z) : Z :=
  if (0 <=? e)%Z then (100 * Z.pos m * 2 ^ e)%Z
  else ((200 * Z.pos m + 2 ^ (- e)) / (2 * 2 ^ (- e)))%Z.

Definition digits (n : Z) : string := NilZero.string_of_uint (N.to_uint (Z.to_N n)).

(** The decimal digits of [n] with a point before the last two, after
    padding with zeros to three digits. *)
Definition fixed2 (n : Z) : string :=
  let m := digits n in
  let m := if (length m <=? 2)%nat then zeros (3 - length m) ++ m else m in
  let k := length m in
  substring 0 (k - 2) m ++ "." ++ substring (k - 2) 2 m.

Definition toFixed2 (x : number) : string :=
  match x with
  | S754_nan => "NaN"
  | S754_infinity false => "Infinity"
  | S754_infinity true => "-Infinity"
  | S754_zero _ => fixed2 0
  | S754_finite s m e =>
    (if s then "-" else "")
      ++ (if at_least_1e21 m e then Number_toString (S754_finite false m e)
          else fixed2 (hundredths m e))
  end.

End ToFixed.

(** *** Timers

    [setTimeout(f, ms)] takes its delay as a WebIDL [long]: the number is
    truncated towards zero, reduced modulo 2^32 into the signed 32-bit
    range (NaN and the infinities give 0), and a negative result is then
    replaced by 0. The callback runs no earlier than that many
    milliseconds after the call. *)

Definition truncate (x : number) : Z :=
  match x with
  | S754_finite s m e =>
    let a := if (0 <=? e)%Z then (Z.pos m * 2 ^ e)%Z
             else (Z.pos m / 2 ^ (- e))%Z in
    if s then (- a)%Z else a
  | _ => 0%Z
  end.

Definition ToInt32 (x : number) : Z :=
  let r := (truncate x mod 2 ^ 32)%Z in
  if (2 ^ 31 <=? r)%Z then (r - 2 ^ 32)%Z else r.

Definition timeout_ms (ms : number) : Z := Z.max 0 (ToInt32 ms).

End JS.

(* ===================================================================== *)
(** ** The data model (types.ts) and the event payload *)
(* ===================================================================== *)

Module Types.
Import JS.

Inductive TriggerType : Type :=
| new_customer
| job_status_updated
| job_created
| task_completed
| invoice_overdue
| scheduled_time
| inventory_low.

Inductive ActionType : Type :=
| webhook
| create_task
| add_to_schedule
| send_email
| update_inventory
| send_sms
| update_job_status
| assign_team
| create_invoice.

Inductive Priority : Type := low | medium | high.
Inductive Recipient : Type := customer_recipient | team | custom.
Inductive Operator : Type := equals | greater_than | less_than | contains.

Definition TriggerType_eqb (a b : TriggerType) : bool :=
  match a, b with
  | new_customer, new_customer
  | job_status_updated, job_status_updated
  | job_created, job_created
  | task_completed, task_completed
  | invoice_overdue, invoice_overdue
  | scheduled_time, scheduled_time
  | inventory_low, inventory_low => true
  | _, _ => false
  end.

(** The text of a trigger kind, as it is printed and sent to webhooks. *)
Definition TriggerType_text (t : TriggerType) : string :=
  match t with
  | new_customer => "new_customer"
  | job_status_updated => "job_status_updated"
  | job_created => "job_created"
  | task_completed => "task_completed"
  | invoice_overdue => "invoice_overdue"
  | scheduled_time => "scheduled_time"
  | inventory_low => "inventory_low"
  end.

Record TriggerConfig : Type := {
  to_status : option string;
  from_status : option string;
  job_value_min : option number;
  job_value_max : option number;
  time : option string;
  days_overdue : option number;
  stock_threshold : option number;
  item_name : option string
}.

Record ActionConfig : Type := {
  url : option string;
  task_title : option string;
  task_description : option string;
  task_priority : option Priority;
  email_subject : option string;
  email_body : option string;
  email_recipient : option Recipient;
  custom_email : option string;
  sms_message : option string;
  sms_recipient : option Recipient;
  custom_phone : option string;
  new_status : option string;
  team_ids : option (list number);
  delay_minutes : option number
}.

(** A generic condition; its [value] is of any type in the source and is
    kept as text here. The engine never reads conditions. *)
Record Condition : Type := {
  field : option string;
  operator : option Operator;
  value : option string
}.

Record Automation : Type := {
  id : option number;
  name : string;
  description : option string;
  trigger_type : TriggerType;
  trigger_config : TriggerConfig;
  action_type : ActionType;
  action_config : ActionConfig;
  conditions : option (list Condition);
  is_enabled : bool
}.

(** A rule with another [from_status], and with another [delay_minutes]. *)
Definition with_from_status (f : option string) (a : Automation) : Automation :=
  let c := trigger_config a in
  {| id := id a; name := name a; description := description a;
     trigger_type := trigger_type a;
     trigger_config :=
       {| to_status := to_status c; from_status := f;
          job_value_min := job_value_min c; job_value_max := job_value_max c;
          time := time c; days_overdue := days_overdue c;
          stock_threshold := stock_threshold c; item_name := item_name c |};
     action_type := action_type a; action_config := action_config a;
     conditions := conditions a; is_enabled := is_enabled a |}.

Definition with_delay_minutes (m : option number) (a : Automation) : Automation :=
  let c := action_config a in
  {| id := id a; name := name a; description := description a;
     trigger_type := trigger_type a; trigger_config := trigger_config a;
     action_type := action_type a;
     action_config :=
       {| url := url c; task_title := task_title c;
          task_description := task_description c;
          task_priority := task_priority c;
          email_subject := email_subject c; email_body := email_body c;
          email_recipient := email_recipient c; custom_email := custom_email c;
          sms_message := sms_message c; sms_recipient := sms_recipient c;
          custom_phone := custom_phone c; new_status := new_status c;
          team_ids := team_ids c; delay_minutes := m |};
     conditions := conditions a; is_enabled := is_enabled a |}.

(** The event payload. In the source it is of type
    [CustomerInfo | EstimateRecord | any], and the declarations of the two
    records are not among the sources. The records below hold the
    properties that the engine reads, with the types its uses give them
    (strings, and a number for the final quote). A property that is
    missing or undefined reads as [None]; a payload that is undefined or
    null is [None] of [any]. *)
Module Customer.
Record t : Type := {
  name : option string;
  address : option string;
  email : option string
}.
End Customer.

Record CalcData : Type := { customer : option Customer.t }.
Record CostsData : Type := { finalQuote : option number }.

Module Data.
Record t : Type := {
  calcData : option CalcData;
  costsData : option CostsData;
  estimateNumber : option string;
  status : option string;
  name : option string;
  address : option string;
  email : option string;
  (** Whether the record has the property [estimateNumber] when what it
      holds is undefined, as in [{estimateNumber: undefined}]. Reading the
      property gives undefined either way; only [in] tells the two
      apart. *)
  estimateNumber_undefined : bool
}.

(** ['estimateNumber' in data]: the record has the property, with a
    string or with undefined. *)
Definition has_estimateNumber (data : t) : bool :=
  match estimateNumber data with
  | Some _ => true
  | None => estimateNumber_undefined data
  end.
End Data.

Definition any : Type := option Data.t.

(** What the handlers are given. The task's [assignedTo] and the job's
    [links] are always the empty array and are left out. *)
Module Task.
Record t : Type := {
  title : string;
  description : string
}.
End Task.

Module Job.
Record t : Type := {
  name : string;
  start : string;
  end_ : string;
  color : string
}.
End Job.

(** The JSON body of a webhook request. *)
Record WebhookBody : Type := {
  body_automation : string;
  body_trigger : TriggerType;
  body_data : any
}.

End Types.

(* ===================================================================== *)
(** ** Effects: console output, handler calls, awaiting a promise *)
(* ===================================================================== *)

Module Effects.
Import JS Types.

Inductive level : Type := Log | Warn | Error.

(** The calls that leave the engine: the four action handlers and the
    global [fetch]. *)
Inductive call : Type :=
| Fetch (url : string) (body : WebhookBody)
| CreateTask (task : Task.t)
| AddToSchedule (job : Job.t)
| SendEmail (to subject body : string)
| DeductInventoryForJob (job : Data.t).

(** A call either throws or returns (a promise, for the awaited ones). *)
Inductive call_outcome : Type :=
| Threw (e : error)
| Returned.

(** How an awaited promise settles. *)
Inductive settlement : Type :=
| Fulfilled
| Rejected (e : error).

(** The body of a function as a tree of its effects. [Await] is the point
    where an async function gives up control until a promise settles. *)
Inductive prog (A : Type) : Type :=
| Ret (a : A)
| Fail (e : error)
| Print (l : level) (msg : string) (arg : option error) (k : prog A)
| Call (c : call) (k : call_outcome -> prog A)
| Await (k : settlement -> prog A)
| Today (k : string -> prog A).
Arguments Ret {A} a.
Arguments Fail {A} e.
Arguments Print {A} l msg arg k.
Arguments Call {A} c k.
Arguments Await {A} k.
Arguments Today {A} k.

Fixpoint pbind {A B} (p : prog A) (f : A -> prog B) : prog B :=
  match p with
  | Ret a => f a
  | Fail e => Fail e
  | Print l m a k => Print l m a (pbind k f)
  | Call c k => Call c (fun r => pbind (k r) f)
  | Await k => Await (fun s => pbind (k s) f)
  | Today k => Today (fun d => pbind (k d) f)
  end.

(** [try { p } catch (error) { handler error }]. *)
Fixpoint try_catch {A} (p : prog A) (handler : error -> prog A) : prog A :=
  match p with
  | Ret a => Ret a
  | Fail e => handler e
  | Print l m a k => Print l m a (try_catch k handler)
  | Call c k => Call c (fun r => try_catch (k r) handler)
  | Await k => Await (fun s => try_catch (k s) handler)
  | Today k => Today (fun d => try_catch (k d) handler)
  end.

Declare Scope prog_scope.
Delimit Scope prog_scope with prog.
Notation "x <- p ;; q" := (pbind p (fun x => q))
  (at level 61, p at next level, right associativity) : prog_scope.
Notation "p ;; q" := (pbind p (fun _ => q))
  (at level 61, right associativity) : prog_scope.

Definition console_log (msg : string) : prog unit := Print Log msg None (Ret tt).
Definition console_warn (msg : string) : prog unit := Print Warn msg None (Ret tt).
Definition console_error (msg : string) (e : error) : prog unit :=
  Print Error msg (Some e) (Ret tt).

(** A call whose exception, if any, is thrown where the call stands. *)
Definition invoke (c : call) : prog unit :=
  Call c (fun r => match r with Threw e => Fail e | Returned => Ret tt end).

(** [await] the promise just obtained: a rejection is thrown here. *)
Definition await : prog unit :=
  Await (fun s => match s with Fulfilled => Ret tt | Rejected e => Fail e end).

(** [fmtInput(new Date())]. *)
Definition fmtInput_new_Date : prog string := Today (fun d => Ret d).

Definition lift {A} (r : result A) : prog A :=
  match r with Ok a => Ret a | Throw e => Fail e end.

(** [p] ends in no exception, whatever the calls and the promises do. *)
Inductive no_throw {A : Type} : prog A -> Prop :=
| no_throw_Ret (a : A) : no_throw (Ret a)
| no_throw_Print l msg arg k : no_throw k -> no_throw (Print l msg arg k)
| no_throw_Call c k : (forall r, no_throw (k r)) -> no_throw (Call c k)
| no_throw_Await k : (forall s, no_throw (k s)) -> no_throw (Await k)
| no_throw_Today k : (forall d, no_throw (k d)) -> no_throw (Today k).

(** Some run of [p] makes the call [c], before or after an [await]. *)
Inductive calls {A : Type} (c : call) : prog A -> Prop :=
| calls_here k : calls c (Call c k)
| calls_Print l msg arg k : calls c k -> calls c (Print l msg arg k)
| calls_Call c' k r : calls c (k r) -> calls c (Call c' k)
| calls_Await k s : calls c (k s) -> calls c (Await k)
| calls_Today k d : calls c (k d) -> calls c (Today k).

(** Some run of [p] prints at level [l]. *)
Inductive prints {A : Type} (l : level) : prog A -> Prop :=
| prints_here msg arg k : prints l (Print l msg arg k)
| prints_Print l' msg arg k : prints l k -> prints l (Print l' msg arg k)
| prints_Call c k r : prints l (k r) -> prints l (Call c k)
| prints_Await k s : prints l (k s) -> prints l (Await k)
| prints_Today k d : prints l (k d) -> prints l (Today k).

(** *** Running a program against its environment *)

(** What can be observed from outside. *)
Inductive event : Type :=
| Printed (l : level) (msg : string) (arg : option error)
| Called (c : call).

(** Where a function stands when it gives control back. *)
Inductive stop (A : Type) : Type :=
| Completed (r : result A)
| Suspended (k : settlement -> prog A).
Arguments Completed {A} r.
Arguments Suspended {A} k.

Section Run.

(** The state of everything outside the engine. *)
Variable H : Type.

(** The action handlers passed to the engine (App.tsx is not part of the
    sources): each may change the outside state and may throw. *)
Record ActionHandlers : Type := {
  createTask : Task.t -> H -> call_outcome * H;
  addToSchedule : Job.t -> H -> call_outcome * H;
  sendEmail : string -> string -> string -> H -> call_outcome * H;
  deductInventoryForJob : Data.t -> H -> call_outcome * H
}.

(** The globals the engine uses. *)
Record Globals : Type := {
  fetch : string -> WebhookBody -> H -> call_outcome * H;
  today : H -> string * H
}.

Variable handlers : ActionHandlers.
Variable globals : Globals.

Definition respond (c : call) (h : H) : call_outcome * H :=
  match c with
  | Fetch u b => fetch globals u b h
  | CreateTask t => createTask handlers t h
  | AddToSchedule j => addToSchedule handlers j h
  | SendEmail t s b => sendEmail handlers t s b h
  | DeductInventoryForJob j => deductInventoryForJob handlers j h
  end.

(** Run [p] until it completes or reaches an [await]. *)
Fixpoint run {A} (p : prog A) (h : H) : list event * stop A * H :=
  match p with
  | Ret a => ([], Completed (Ok a), h)
  | Fail e => ([], Completed (Throw e), h)
  | Print l m a k =>
    let '(evs, s, h') := run k h in (Printed l m a :: evs, s, h')
  | Call c k =>
    let (r, h1) := respond c h in
    let '(evs, s, h2) := run (k r) h1 in (Called c :: evs, s, h2)
  | Await k => ([], Suspended k, h)
  | Today k => let (d, h1) := today globals h in run (k d) h1
  end.

End Run.

Arguments createTask {H} _ _ _.
Arguments addToSchedule {H} _ _ _.
Arguments sendEmail {H} _ _ _ _ _.
Arguments deductInventoryForJob {H} _ _ _.
Arguments fetch {H} _ _ _ _.
Arguments today {H} _ _.
Arguments respond {H} handlers globals c h.
Arguments run {H} handlers globals {A} p h.

End Effects.

(* ===================================================================== *)
(** ** The engine *)
(* ===================================================================== *)

Module Engine.
Import JS Types Effects.
Local Open Scope prog_scope.

(** The double quote character, for the messages that quote a name. *)
Definition dq : string := String (ascii_of_nat 34) EmptyString.
Definition quoted (s : string) : string := dq ++ s ++ dq.

(** A template literal prints a missing value as [undefined]. *)
Definition interpolate (o : option string) : string :=
  match o with Some s => s | None => "undefined" end.

Section Engine.

Variable Number_toString : number -> string.

(** [replacePlaceholders(text, data)]. Reading [data.calcData] throws
    when [data] is undefined or null. *)
Definition replacePlaceholders (text : string) (data : any) : result string :=
  if negb (truthy_string text) then Ok ""
  else
    match data with
    | None => Throw (TypeError_read "calcData")
    | Some data =>
      let result := text in
      let result :=
        replace "[customer_name]"
          (or_str (or_opt (chain (chain (Data.calcData data) customer) Customer.name)
                          (Data.name data)) "")
          result in
      let result :=
        replace "[customer_address]"
          (or_str (or_opt (chain (chain (Data.calcData data) customer) Customer.address)
                          (Data.address data)) "")
          result in
      let result :=
        replace "[job_number]" (or_str (Data.estimateNumber data) "") result in
      let result :=
        replace "[job_value]"
          (or_str (option_map (toFixed2 Number_toString)
                     (chain (Data.costsData data) finalQuote)) "")
          result in
      Ok result
    end.

(** *** executeAction *)

(** The recipient of a [send_email] action; [None] is undefined. *)
Definition emailRecipient (automation : Automation) (data : any)
  : result (option string) :=
  match email_recipient (action_config automation) with
  | Some custom => Ok (Some (or_str (custom_email (action_config automation)) ""))
  | Some team => Ok (Some "team@example.com")
  | _ =>
    match data with
    | None => Throw (TypeError_read "calcData")
    | Some data =>
      Ok (or_opt (chain (chain (Data.calcData data) customer) Customer.email)
                 (Data.email data))
    end
  end.

(** [executeAction(automation, data, handlers)]: the body of the async
    function. The handlers are those of the run ([Effects.run]). *)
Definition executeAction (automation : Automation) (data : any) : prog unit :=
  let config := action_config automation in
  try_catch
    match action_type automation with
    | webhook =>
      match url config with
      | Some u =>
        if truthy_string u then
          try_catch
            (invoke (Fetch u {| body_automation := name automation;
                                body_trigger := trigger_type automation;
                                body_data := data |}) ;;
             await ;;
             console_log ("Webhook sent successfully for " ++ quoted (name automation)))
            (fun error =>
               console_error
                 ("Webhook for automation " ++ quoted (name automation) ++ " failed:")
                 error)
        else Ret tt
      | None => Ret tt
      end

    | create_task =>
      match task_title config with
      | Some task_title =>
        if truthy_string task_title then
          title <- lift (replacePlaceholders task_title data) ;;
          description <-
            lift (replacePlaceholders (or_str (task_description config) "") data) ;;
          invoke (CreateTask {| Task.title := title;
                                Task.description := description |}) ;;
          await ;;
          console_log ("Task created: " ++ quoted title)
        else Ret tt
      | None => Ret tt
      end

    | add_to_schedule =>
      let jobData := data in
      match jobData with
      | Some job =>
        if truthy (fun _ => true) (chain (Data.calcData job) customer) then
          jobName <-
            lift (replacePlaceholders "[customer_name] - [job_number]" jobData) ;;
          start <- fmtInput_new_Date ;;
          end_ <- fmtInput_new_Date ;;
          invoke (AddToSchedule {| Job.name := jobName;
                                   Job.start := start;
                                   Job.end_ := end_;
                                   Job.color := "#3498DB" |}) ;;
          console_log ("Job added to schedule: " ++ quoted jobName)
        else Ret tt
      | None => Ret tt
      end

    | send_email =>
      emailRecipient <- lift (emailRecipient automation data) ;;
      match emailRecipient, email_subject config with
      | Some to, Some email_subject =>
        if truthy_string to && truthy_string email_subject then
          subject <- lift (replacePlaceholders email_subject data) ;;
          body <- lift (replacePlaceholders (or_str (email_body config) "") data) ;;
          invoke (SendEmail to subject body) ;;
          await ;;
          console_log ("Email sent to " ++ to)
        else
          console_warn ("Automation " ++ quoted (name automation)
                        ++ " skipped: No email recipient found.")
      | _, _ =>
        console_warn ("Automation " ++ quoted (name automation)
                      ++ " skipped: No email recipient found.")
      end

    | send_sms =>
      console_log ("SMS action triggered for automation "
                   ++ quoted (name automation) ++ " (not yet implemented)")

    | update_job_status =>
      console_log ("Update job status to "
                   ++ quoted (interpolate (new_status config))
                   ++ " (requires implementation)")

    | assign_team =>
      console_log ("Assign team action triggered for automation "
                   ++ quoted (name automation) ++ " (requires implementation)")

    | create_invoice =>
      console_log ("Create invoice action triggered for automation "
                   ++ quoted (name automation) ++ " (requires implementation)")

    | update_inventory =>
      match data with
      | None => Fail (TypeError_in "estimateNumber")
      | Some job =>
        if Data.has_estimateNumber job then
          invoke (DeductInventoryForJob job) ;;
          await ;;
          console_log ("Inventory updated for job "
                       ++ interpolate (Data.estimateNumber job))
        else
          console_warn
            ("Automation " ++ quoted (name automation)
             ++ " skipped: 'update_inventory' action can only be triggered by job-related events.")
      end
    end
    (fun error =>
       console_error
         ("Failed to execute automation " ++ quoted (name automation) ++ ":") error).

(** *** processAutomations *)

(** [job.costsData?.finalQuote || 0]; reading [job.costsData] throws when
    the payload is undefined or null. *)
Definition jobValue (job : any) : result number :=
  match job with
  | None => Throw (TypeError_read "costsData")
  | Some job => Ok (or_num (chain (Data.costsData job) finalQuote) (num 0))
  end.

(** [a === b] on two strings either of which may be undefined. *)
Definition strict_eq (a b : option string) : bool :=
  match a, b with
  | Some x, Some y => (x =? y)%string
  | None, None => true
  | _, _ => false
  end.

(** [if (guard && bound) { const jobValue = ...; if (jobValue outside bound)
    shouldRun = false; }] where [outside] is [<] for the lower bound and
    [>] for the upper one. *)
Definition check_bound (guard : bool) (bound : option number)
    (outside : number -> number -> bool) (job : any) (shouldRun : bool)
  : result bool :=
  match bound with
  | Some b =>
    if guard && truthy_number b then
      bind (jobValue job) (fun v => Ok (if outside v b then false else shouldRun))
    else Ok shouldRun
  | None => Ok shouldRun
  end.

(** The value of [shouldRun] when the condition checks of the loop body
    are done. *)
Definition shouldRun (triggerType : TriggerType) (automation : Automation)
    (data : any) : result bool :=
  let config := trigger_config automation in
  match triggerType with
  | new_customer => Ok true
  | job_created =>
    let job := data in
    bind (check_bound true (job_value_min config) lt job true) (fun shouldRun =>
    check_bound true (job_value_max config) gt job shouldRun)
  | job_status_updated =>
    let job := data in
    match job with
    | None => Throw (TypeError_read "status")
    | Some j =>
      let shouldRun :=
        if strict_eq (Data.status j) (to_status config) then
          if truthy truthy_string (from_status config) then true else true
        else false in
      bind (check_bound shouldRun (job_value_min config) lt job shouldRun)
        (fun shouldRun =>
      check_bound shouldRun (job_value_max config) gt job shouldRun)
    end
  | task_completed => Ok true
  | invoice_overdue => Ok true
  | scheduled_time => Ok true
  | inventory_low => Ok true
  end.

(** What the engine did with a rule it ran: called [executeAction], which
    ran until it completed or reached an [await], or handed the call to
    [setTimeout] with a delay in milliseconds. *)
Inductive mode : Type :=
| Started (s : stop unit)
| Scheduled (ms : number).

Record Dispatch : Type := {
  rule : Automation;
  payload : any;
  how : mode
}.

Section Pass.

Variable H : Type.

(** The state of a pass: the state outside the engine, what has been
    printed and called so far, and the rules that were run, in order. *)
Record world : Type := {
  outside : H;
  trace : list event;
  dispatched : list Dispatch
}.

Variable handlers : ActionHandlers H.
Variable globals : Globals H.

Definition print (l : level) (msg : string) (w : world) : world :=
  {| outside := outside w;
     trace := trace w ++ [Printed l msg None];
     dispatched := dispatched w |}.

(** [setTimeout(() => executeAction(automation, data, handlers), ms)]. *)
Definition setTimeout (automation : Automation) (data : any) (ms : number)
    (w : world) : world :=
  {| outside := outside w;
     trace := trace w;
     dispatched := dispatched w
       ++ [{| rule := automation; payload := data; how := Scheduled ms |}] |}.

(** [executeAction(automation, data, handlers)], not awaited. *)
Definition call_executeAction (automation : Automation) (data : any)
    (w : world) : world :=
  let '(evs, s, h) := run handlers globals (executeAction automation data) (outside w) in
  {| outside := h;
     trace := trace w ++ evs;
     dispatched := dispatched w
       ++ [{| rule := automation; payload := data; how := Started s |}] |}.

(** The body of [if (shouldRun) { ... }]. *)
Definition dispatch (automation : Automation) (data : any) (w : world) : world :=
  let w := print Log ("Running automation: " ++ name automation) w in
  match delay_minutes (action_config automation) with
  | Some delay =>
    if truthy_number delay && gt delay (num 0) then
      setTimeout automation data (mul (mul delay (num 60)) (num 1000)) w
    else call_executeAction automation data w
  | None => call_executeAction automation data w
  end.

(** [for (const automation of automationsToRun) body]: an exception
    leaves the loop, and what was done before it stays done. *)
Fixpoint for_of (automationsToRun : list Automation)
    (body : Automation -> world -> result unit * world) (w : world)
  : result unit * world :=
  match automationsToRun with
  | [] => (Ok tt, w)
  | automation :: rest =>
    match body automation w with
    | (Ok _, w') => for_of rest body w'
    | (Throw e, w') => (Throw e, w')
    end
  end.

Definition processAutomations (triggerType : TriggerType) (data : any)
    (allAutomations : list Automation) (w : world) : result unit * world :=
  let automationsToRun :=
    filter (fun a => is_enabled a && TriggerType_eqb (trigger_type a) triggerType)
           allAutomations in
  for_of automationsToRun
    (fun automation w =>
       match shouldRun triggerType automation data with
       | Throw e => (Throw e, w)
       | Ok true => (Ok tt, dispatch automation data w)
       | Ok false => (Ok tt, w)
       end)
    w.

End Pass.

End Engine.

Arguments outside {H} w.
Arguments trace {H} w.
Arguments dispatched {H} w.
Arguments processAutomations Number_toString {H} handlers globals
  triggerType data allAutomations w.
Arguments dispatch Number_toString {H} handlers globals automation data w.
Arguments call_executeAction Number_toString {H} handlers globals automation data w.
Arguments setTimeout {H} automation data ms w.
Arguments print {H} l msg w.
Arguments for_of {H} automationsToRun body w.

End Engine.

(* ===================================================================== *)
(** ** The page: how a rule is described, counted and toggled *)
(* ===================================================================== *)

Module Page.
Import JS Types.

(** The text of the values of the string unions, as a template literal
    prints them. *)
Definition Priority_text (p : Priority) : string :=
  match p with low => "low" | medium => "medium" | high => "high" end.

Definition Recipient_text (r : Recipient) : string :=
  match r with
  | customer_recipient => "customer"
  | team => "team"
  | custom => "custom"
  end.

(** [a.join(', ')]. *)
Fixpoint join (l : list string) : string :=
  match l with
  | [] => ""
  | [x] => x
  | x :: rest => x ++ ", " ++ join rest
  end.

Section Descriptions.

(** Number::toString, by which a template literal prints a number. *)
Variable Number_toString : number -> string.

(** [`${x}`] for an optional string: a missing one prints as undefined. *)
Definition shown (o : option string) : string :=
  match o with Some s => s | None => "undefined" end.

(** The [jobConditions] of [getTriggerDescription]. *)
Definition jobConditions (config : TriggerConfig) : list string :=
  let jobConditions := [] in
  let jobConditions :=
    match job_value_min config with
    | Some m =>
      if truthy_number m
      then (jobConditions ++ [("value ≥ $" ++ Number_toString m)%string])%list
      else jobConditions
    | None => jobConditions
    end in
  match job_value_max config with
  | Some m =>
    if truthy_number m
    then (jobConditions ++ [("value ≤ $" ++ Number_toString m)%string])%list
    else jobConditions
  | None => jobConditions
  end.

Definition getTriggerDescription (automation : Automation) : string :=
  let config := trigger_config automation in
  match trigger_type automation with
  | new_customer => "When a new customer is created"
  | job_created =>
    let jobConditions := jobConditions config in
    "When a new job is created"
    ++ (if Nat.eqb (List.length jobConditions) 0 then ""
        else " (" ++ join jobConditions ++ ")")
  | job_status_updated =>
    let fromStatus :=
      match from_status config with
      | Some f => if truthy_string f then " from '" ++ f ++ "'" else ""
      | None => ""
      end in
    "When a job status changes" ++ fromStatus
    ++ " to '" ++ shown (to_status config) ++ "'"
  | task_completed => "When a task is marked as completed"
  | invoice_overdue =>
    "When an invoice is "
    ++ Number_toString (or_num (days_overdue config) (num 30))
    ++ " days overdue"
  | scheduled_time => "Daily at " ++ or_str (time config) "09:00"
  | inventory_low =>
    "When " ++ or_str (item_name config) "item" ++ " stock falls below "
    ++ Number_toString (or_num (stock_threshold config) (num 10))
  end.

(** The [delay] of [getActionDescription]. *)
Definition delay (automation : Automation) : string :=
  match delay_minutes (action_config automation) with
  | Some m =>
    if truthy_number m then " (after " ++ Number_toString m ++ "m)" else ""
  | None => ""
  end.

(** [recipient === 'custom' ? own : recipient || 'customer'], printed. *)
Definition sentTo (recipient : option Recipient) (own : option string) : string :=
  match recipient with
  | Some custom => shown own
  | Some r => Recipient_text r
  | None => "customer"
  end.

Definition getActionDescription (automation : Automation) : string :=
  let config := action_config automation in
  let delay := delay automation in
  match action_type automation with
  | webhook => "Trigger a webhook" ++ delay
  | create_task =>
    let priority :=
      match task_priority config with
      | Some p => " [" ++ Priority_text p ++ " priority]"
      | None => ""
      end in
    "Create task: " ++ Engine.quoted (shown (task_title config)) ++ priority
    ++ delay
  | add_to_schedule => "Add job to the schedule" ++ delay
  | send_email =>
    let emailTo := sentTo (email_recipient config) (custom_email config) in
    "Send email to " ++ emailTo ++ ": "
    ++ Engine.quoted (shown (email_subject config)) ++ delay
  | send_sms =>
    let smsTo := sentTo (sms_recipient config) (custom_phone config) in
    "Send SMS to " ++ smsTo ++ delay
  | update_job_status =>
    "Update job status to '" ++ shown (new_status config) ++ "'" ++ delay
  | assign_team => "Assign team to job" ++ delay
  | create_invoice => "Create an invoice" ++ delay
  | update_inventory => "Deduct foam sets from inventory" ++ delay
  end.

End Descriptions.

(** What [handleToggle] gives to [onUpdateAutomation]:
    [{ ...automation, is_enabled: !automation.is_enabled }]. *)
Definition handleToggle (automation : Automation) : Automation :=
  {| id := id automation; name := name automation;
     description := description automation;
     trigger_type := trigger_type automation;
     trigger_config := trigger_config automation;
     action_type := action_type automation;
     action_config := action_config automation;
     conditions := conditions automation;
     is_enabled := negb (is_enabled automation) |}.

(** The count of the banner: [automations.filter(a => a.is_enabled).length]. *)
Definition activeCount (automations : list Automation) : nat :=
  List.length (filter (fun a => is_enabled a) automations).

End Page.

(* ===================================================================== *)
(** ** The conditions as the specification words them *)
(* ===================================================================== *)

Module Spec.
Import JS Types.

(** A bound that is absent or zero. *)
Definition absent_or_zero (bound : option number) : bool :=
  match bound with
  | None => true
  | Some (S754_zero _) => true
  | Some _ => false
  end.

(** The job value: the final quote, 0 when it is absent. *)
Definition job_value (d : Data.t) : number :=
  match chain (Data.costsData d) finalQuote with
  | Some q => q
  | None => num 0
  end.

(** The lower bound is absent or zero, or the value is at least the bound. *)
Definition min_holds (config : TriggerConfig) (d : Data.t) : bool :=
  absent_or_zero (job_value_min config)
  || match job_value_min config with
     | Some m => ge (job_value d) m
     | None => false
     end.

(** The upper bound is absent or zero, or the value is at most the bound. *)
Definition max_holds (config : TriggerConfig) (d : Data.t) : bool :=
  absent_or_zero (job_value_max config)
  || match job_value_max config with
     | Some m => le (job_value d) m
     | None => false
     end.

Definition bounds_hold (config : TriggerConfig) (d : Data.t) : bool :=
  min_holds config d && max_holds config d.

(** The payload's status equals the configured [to_status]. *)
Definition status_is (status to : option string) : bool :=
  match status, to with
  | Some s, Some t => if string_dec s t then true else false
  | None, None => true
  | _, _ => false
  end.

(** The condition of a trigger kind on a payload, with the bounds as
    above. The kinds that do not look at the payload hold on any payload,
    a missing one included. Without a payload there is no job value and
    no status: a bound holds when it is absent or zero. *)
Definition condition_holds (kind : TriggerType) (config : TriggerConfig)
    (data : any) : bool :=
  match kind with
  | job_created =>
    match data with
    | Some d => bounds_hold config d
    | None => absent_or_zero (job_value_min config)
              && absent_or_zero (job_value_max config)
    end
  | job_status_updated =>
    match data with
    | Some d => status_is (Data.status d) (to_status config) && bounds_hold config d
    | None => false
    end
  | _ => true
  end.

(** The rules the matcher is to select, in the order of the rule set. *)
Definition matching (kind : TriggerType) (data : any) (R : list Automation)
  : list Automation :=
  filter (fun a => is_enabled a
                   && TriggerType_eqb (trigger_type a) kind
                   && condition_holds kind (trigger_config a) data) R.

(** *** The conditions with what is not a number taken into account *)

(** A bound that constrains nothing: absent, zero or NaN. *)
Definition unset (bound : option number) : bool :=
  match bound with
  | None => true
  | Some (S754_zero _) => true
  | Some S754_nan => true
  | Some _ => false
  end.

(** The job value: the final quote, 0 when it is absent or NaN. *)
Definition quote_or_zero (d : Data.t) : number :=
  match chain (Data.costsData d) finalQuote with
  | Some q => if is_nan q then num 0 else q
  | None => num 0
  end.

(** The lower bound is unset, or the value is at least the bound. *)
Definition min_passes (config : TriggerConfig) (d : Data.t) : bool :=
  unset (job_value_min config)
  || match job_value_min config with
     | Some m => ge (quote_or_zero d) m
     | None => false
     end.

(** The upper bound is unset, or the value is at most the bound. *)
Definition max_passes (config : TriggerConfig) (d : Data.t) : bool :=
  unset (job_value_max config)
  || match job_value_max config with
     | Some m => le (quote_or_zero d) m
     | None => false
     end.

Definition bounds_pass (config : TriggerConfig) (d : Data.t) : bool :=
  min_passes config d && max_passes config d.

(** The condition of a trigger kind on the payload of an event. Without
    a payload there is no job value and no status: a bound passes when
    it is unset, and no status is equal to the configured one. *)
Definition condition_passes (kind : TriggerType) (config : TriggerConfig)
    (data : any) : bool :=
  match kind with
  | job_created =>
    match data with
    | Some d => bounds_pass config d
    | None => unset (job_value_min config) && unset (job_value_max config)
    end
  | job_status_updated =>
    match data with
    | Some d => status_is (Data.status d) (to_status config) && bounds_pass config d
    | None => false
    end
  | _ => true
  end.

(** The rules that are selected for an event, in the order of the rule
    set. *)
Definition selected (kind : TriggerType) (data : any) (R : list Automation)
  : list Automation :=
  filter (fun a => is_enabled a
                   && TriggerType_eqb (trigger_type a) kind
                   && condition_passes kind (trigger_config a) data) R.

(** The conditions of the event can be checked on the rule set: the
    event has a payload, or its kind is not one of the two job kinds, or
    no enabled rule of its kind reads the payload (of the [job_created]
    rules those with a bound that is set do, of the [job_status_updated]
    rules all). *)
Definition readable (kind : TriggerType) (data : any) (R : list Automation)
  : bool :=
  match data with
  | Some _ => true
  | None =>
    match kind with
    | job_created =>
      forallb (fun a => unset (job_value_min (trigger_config a))
                        && unset (job_value_max (trigger_config a)))
              (filter (fun a => is_enabled a
                                && TriggerType_eqb (trigger_type a) kind) R)
    | job_status_updated =>
      negb (existsb (fun a => is_enabled a
                              && TriggerType_eqb (trigger_type a) kind) R)
    | _ => true
    end
  end.

(** *** Placeholder substitution *)

(** The first of two optional strings that is present and not empty, the
    empty string when there is none. *)
Definition first_present (a b : option string) : string :=
  match a, b with
  | Some x, Some y => if (x =? "")%string then y else x
  | Some x, None => x
  | None, Some y => y
  | None, None => ""
  end.

(** The customer's name and address: from the nested customer record,
    else from the top level of the payload. *)
Definition customer_name (d : Data.t) : string :=
  first_present (chain (chain (Data.calcData d) customer) Customer.name)
                (Data.name d).

Definition customer_address (d : Data.t) : string :=
  first_present (chain (chain (Data.calcData d) customer) Customer.address)
                (Data.address d).

(** The job number: the record's number field. *)
Definition job_number (d : Data.t) : string :=
  first_present (Data.estimateNumber d) None.

(** The job value: the nested final quote with two decimals. *)
Definition job_value_text (N : number -> string) (d : Data.t) : string :=
  match chain (Data.costsData d) finalQuote with
  | Some q => toFixed2 N q
  | None => ""
  end.

(** The value of the token [[w]], for the four tokens that have one. *)
Definition token_value (N : number -> string) (d : Data.t) (w : string)
  : option string :=
  if (w =? "customer_name")%string then Some (customer_name d)
  else if (w =? "customer_address")%string then Some (customer_address d)
  else if (w =? "job_number")%string then Some (job_number d)
  else if (w =? "job_value")%string then Some (job_value_text N d)
  else None.

(** Scanning a string from left to right: where [m] finds a match, of
    length [n] and with output [out], the output stands for the next [n]
    characters; the other characters are kept. [before] is the part
    already scanned, [skip] the number of characters still to pass. *)
Fixpoint scan (m : string -> string -> option (nat * string))
    (before : string) (skip : nat) (s : string) : string :=
  match s with
  | EmptyString => EmptyString
  | String c s' =>
    match skip with
    | S k => scan m (before ++ String c "") k s'
    | O =>
      match m before s with
      | Some (n, out) => out ++ scan m (before ++ String c "") (n - 1) s'
      | None => String c (scan m (before ++ String c "") 0 s')
      end
    end
  end.

Definition bracketed (w : string) : string := "[" ++ w ++ "]".

(** The token that stands at the head of [s], with its value. *)
Definition token_at (N : number -> string) (d : Data.t) (s : string)
  : option (nat * string) :=
  if prefix (bracketed "customer_name") s
  then Some (length (bracketed "customer_name"), customer_name d)
  else if prefix (bracketed "customer_address") s
  then Some (length (bracketed "customer_address"), customer_address d)
  else if prefix (bracketed "job_number") s
  then Some (length (bracketed "job_number"), job_number d)
  else if prefix (bracketed "job_value") s
  then Some (length (bracketed "job_value"), job_value_text N d)
  else None.

(** The template with every occurrence of the four tokens replaced by its
    value, in one pass, and everything else kept. *)
Definition substitute (N : number -> string) (d : Data.t) (text : string)
  : string :=
  scan (fun _ s => token_at N d s) "" 0 text.

(** A template as a sequence of pieces: text, and bracketed tokens. *)
Inductive chunk : Type :=
| Text (s : string)
| Token (w : string).

Fixpoint has_char (c : ascii) (s : string) : bool :=
  match s with
  | EmptyString => false
  | String x s' => Ascii.eqb x c || has_char c s'
  end.

(** Text has no opening bracket; the name of a token has no bracket. *)
Definition plain (c : chunk) : Prop :=
  match c with
  | Text s => has_char "[" s = false
  | Token w => has_char "[" w = false /\ has_char "]" w = false
  end.

Definition render_chunk (c : chunk) : string :=
  match c with
  | Text s => s
  | Token w => bracketed w
  end.

Fixpoint render (cs : list chunk) : string :=
  match cs with
  | [] => ""
  | c :: cs' => render_chunk c ++ render cs'
  end.

(** A piece after substitution: a token that has a value becomes its
    value, every other piece stays. *)
Definition expand (value : string -> option string) (c : chunk) : string :=
  match c with
  | Text s => s
  | Token w =>
    match value w with
    | Some v => v
    | None => bracketed w
    end
  end.

Fixpoint expand_all (value : string -> option string) (cs : list chunk)
  : string :=
  match cs with
  | [] => ""
  | c :: cs' => expand value c ++ expand_all value cs'
  end.

Definition substituted (N : number -> string) (d : Data.t) (cs : list chunk)
  : string :=
  expand_all (token_value N d) cs.

(** What one pass of [replace] looks for: the pattern [pat] at the head
    of the rest of the subject. *)
Definition replace_match (pat replacement : string) (before s : string)
  : option (nat * string) :=
  if prefix pat s
  then Some (length pat,
             GetSubstitution pat before (drop (length pat) s) replacement)
  else None.

(** A matcher that only matches at an opening bracket, and that reads a
    bracketed token as [value] says. *)
Definition reads_tokens (m : string -> string -> option (nat * string))
    (value : string -> option string) : Prop :=
  (forall before c s, c <> "["%char -> m before (String c s) = None)
  /\ (forall before w rest,
        has_char "[" w = false -> has_char "]" w = false ->
        m before (bracketed w ++ rest)
        = match value w with
          | Some v => Some (length (bracketed w), v)
          | None => None
          end).

(** The one token [[n]] has the value [v]. *)
Definition only (n v : string) (w : string) : option string :=
  if (n =? w)%string then Some v else None.

(** A piece after one pass of [replace]: the token [[n]] has become the
    text [v]. *)
Definition put (n v : string) (c : chunk) : chunk :=
  match c with
  | Text s => Text s
  | Token w => if (n =? w)%string then Text v else Token w
  end.

(** A value that can be put in as it is: it has no dollar sign, which
    [replace] would read as a pattern, and opens no bracket. *)
Definition clean (v : string) : Prop :=
  has_char "$" v = false /\ has_char "[" v = false.

(** A final quote that [toFixed] prints in decimal notation: absent, or
    finite and below 10^21 in magnitude. *)
Definition ordinary (q : option number) : Prop :=
  match q with
  | None => True
  | Some (S754_zero _) => True
  | Some (S754_finite _ m e) => at_least_1e21 m e = false
  | Some _ => False
  end.

Fixpoint all_digits (s : string) : bool :=
  match s with
  | EmptyString => true
  | String c s' =>
    (Nat.leb 48 (nat_of_ascii c) && Nat.leb (nat_of_ascii c) 57) && all_digits s'
  end.

(** Digits, a point, two digits, after an optional minus sign. *)
Definition two_decimals (s : string) : Prop :=
  exists sign whole cents,
    s = sign ++ whole ++ "." ++ cents
    /\ (sign = "" \/ sign = "-")
    /\ whole <> "" /\ all_digits whole = true
    /\ length cents = 2 /\ all_digits cents = true.

(** The payload is truthy and has a nested customer record. *)
Definition has_customer (data : any) : bool :=
  match data with
  | Some d =>
    match chain (Data.calcData d) customer with
    | Some _ => true
    | None => false
    end
  | None => false
  end.

(** A message that says the action is not wired. *)
Definition says_not_done (msg : string) : Prop :=
  exists what : string,
    msg = what ++ " (not yet implemented)"
    \/ msg = what ++ " (requires implementation)".

(** The promise of a dispatched call of [executeAction] is never
    rejected: the call has completed normally, or waits with a rest that
    throws nothing, or is still to be started by its timer and will throw
    nothing. *)
Definition contained (N : number -> string) (d : Engine.Dispatch) : Prop :=
  match Engine.how d with
  | Engine.Started (Effects.Completed r) => r = Ok tt
  | Engine.Started (Effects.Suspended k) => forall s, Effects.no_throw (k s)
  | Engine.Scheduled _ =>
    Effects.no_throw (Engine.executeAction N (Engine.rule d) (Engine.payload d))
  end.

(** A delay of [n] whole minutes is positive, and the timer keeps it:
    it waits [n * 60000] milliseconds. *)
Definition delay_kept (n : Z) : bool :=
  truthy_number (num n) && gt (num n) (num 0)
  && (timeout_ms (mul (mul (num n) (num 60)) (num 1000)) =? n * 60000)%Z.

(** [f] holds on the [count] integers from [z] on. *)
Fixpoint all_from (f : Z -> bool) (z : Z) (count : nat) : bool :=
  match count with
  | O => true
  | S k => f z && all_from f (z + 1) k
  end.

(** Dispatching the rules of a list one after the other. *)
Definition dispatch_all (N : number -> string) {H : Type}
    (handlers : Effects.ActionHandlers H) (globals : Effects.Globals H)
    (data : any) (l : list Automation) (w : Engine.world H) : Engine.world H :=
  fold_left (fun w a => Engine.dispatch N handlers globals a data w) l w.

End Spec.

(* ===================================================================== *)
(** ** Concrete rules and payloads *)
(* ===================================================================== *)

Module Examples.
Import JS Types Effects Engine.

Definition no_trigger_config : TriggerConfig :=
  {| to_status := None; from_status := None; job_value_min := None;
     job_value_max := None; time := None; days_overdue := None;
     stock_threshold := None; item_name := None |}.

Definition no_action_config : ActionConfig :=
  {| url := None; task_title := None; task_description := None;
     task_priority := None; email_subject := None; email_body := None;
     email_recipient := None; custom_email := None; sms_message := None;
     sms_recipient := None; custom_phone := None; new_status := None;
     team_ids := None; delay_minutes := None |}.

(** An enabled rule. *)
Definition a_rule (n : string) (t : TriggerType) (tc : TriggerConfig)
    (act : ActionType) (ac : ActionConfig) : Automation :=
  {| id := None; name := n; description := None;
     trigger_type := t; trigger_config := tc;
     action_type := act; action_config := ac;
     conditions := None; is_enabled := true |}.

Definition empty_record : Data.t :=
  {| Data.calcData := None; Data.costsData := None;
     Data.estimateNumber := None; Data.status := None;
     Data.name := None; Data.address := None; Data.email := None;
     Data.estimateNumber_undefined := false |}.

(** A job whose final quote is [q]. *)
Definition job_quoted (q : number) : Data.t :=
  {| Data.calcData := None;
     Data.costsData := Some {| finalQuote := Some q |};
     Data.estimateNumber := None; Data.status := None;
     Data.name := None; Data.address := None; Data.email := None;
     Data.estimateNumber_undefined := false |}.

(** A job in status [s]. *)
Definition job_in_status (s : string) : Data.t :=
  {| Data.calcData := None; Data.costsData := None;
     Data.estimateNumber := None; Data.status := Some s;
     Data.name := None; Data.address := None; Data.email := None;
     Data.estimateNumber_undefined := false |}.

(** [{calcData: {customer: {name: n}}, estimateNumber: e}]. *)
Definition job_of (n : string) (e : option string) : Data.t :=
  {| Data.calcData :=
       Some {| customer := Some {| Customer.name := Some n;
                                   Customer.address := None;
                                   Customer.email := None |} |};
     Data.costsData := None;
     Data.estimateNumber := e; Data.status := None;
     Data.name := None; Data.address := None; Data.email := None;
     Data.estimateNumber_undefined := false |}.

Definition min_500 : TriggerConfig :=
  {| to_status := None; from_status := None;
     job_value_min := Some (num 500); job_value_max := None;
     time := None; days_overdue := None;
     stock_threshold := None; item_name := None |}.

Definition to_sold (from : option string) : TriggerConfig :=
  {| to_status := Some "sold"; from_status := from;
     job_value_min := None; job_value_max := None;
     time := None; days_overdue := None;
     stock_threshold := None; item_name := None |}.

(** A [job_created] rule with the bounds [lo] and [hi]. *)
Definition bounded_rule (lo hi : option number) : Automation :=
  a_rule "Bounded" job_created
    {| to_status := None; from_status := None;
       job_value_min := lo; job_value_max := hi;
       time := None; days_overdue := None;
       stock_threshold := None; item_name := None |}
    send_sms no_action_config.

(** A [job_status_updated] rule for the status "sold" with the bounds
    [lo] and [hi]. *)
Definition sold_bounded_rule (lo hi : option number) : Automation :=
  a_rule "Sold, bounded" job_status_updated
    {| to_status := Some "sold"; from_status := None;
       job_value_min := lo; job_value_max := hi;
       time := None; days_overdue := None;
       stock_threshold := None; item_name := None |}
    send_sms no_action_config.

(** A job in status "sold" whose final quote is [q]. *)
Definition sold_job_quoted (q : number) : Data.t :=
  {| Data.calcData := None;
     Data.costsData := Some {| finalQuote := Some q |};
     Data.estimateNumber := None; Data.status := Some "sold";
     Data.name := None; Data.address := None; Data.email := None;
     Data.estimateNumber_undefined := false |}.

Definition rule_min_500 : Automation :=
  a_rule "Big jobs" job_created min_500 send_sms no_action_config.

Definition rule_to_sold (from : option string) : Automation :=
  a_rule "Sold" job_status_updated (to_sold from) send_sms no_action_config.

(** A [create_task] rule whose title is the template [t]. *)
Definition task_rule (t : option string) : Automation :=
  a_rule "Follow up" new_customer no_trigger_config create_task
    {| url := None; task_title := t; task_description := None;
       task_priority := None; email_subject := None; email_body := None;
       email_recipient := None; custom_email := None; sms_message := None;
       sms_recipient := None; custom_phone := None; new_status := None;
       team_ids := None; delay_minutes := None |}.

(** A rule of action kind [k] with an empty action configuration. *)
Definition bare_rule (k : ActionType) : Automation :=
  a_rule "Bare" new_customer no_trigger_config k no_action_config.

(** A rule that is delayed by [m] minutes. *)
Definition delayed_rule (m : number) : Automation :=
  with_delay_minutes (Some m) (bare_rule send_sms).

(** Handlers and globals that always succeed, with nothing outside to
    change. *)
Definition willing_handlers : ActionHandlers unit :=
  {| createTask := fun _ h => (Returned, h);
     addToSchedule := fun _ h => (Returned, h);
     sendEmail := fun _ _ _ h => (Returned, h);
     deductInventoryForJob := fun _ h => (Returned, h) |}.

(** Handlers that all throw. *)
Definition failing_handlers : ActionHandlers unit :=
  {| createTask := fun _ h => (Threw (Raised "createTask failed"), h);
     addToSchedule := fun _ h => (Threw (Raised "addToSchedule failed"), h);
     sendEmail := fun _ _ _ h => (Threw (Raised "sendEmail failed"), h);
     deductInventoryForJob := fun _ h => (Threw (Raised "deduct failed"), h) |}.

(** Handlers of which the schedule handler throws. *)
Definition schedule_fails : ActionHandlers unit :=
  {| createTask := fun _ h => (Returned, h);
     addToSchedule := fun _ h => (Threw (Raised "addToSchedule failed"), h);
     sendEmail := fun _ _ _ h => (Returned, h);
     deductInventoryForJob := fun _ h => (Returned, h) |}.

Definition some_globals : Globals unit :=
  {| fetch := fun _ _ h => (Returned, h);
     today := fun h => ("2024-05-01", h) |}.

Definition empty_world : world unit :=
  {| outside := tt; trace := []; dispatched := [] |}.

(** A Number::toString for the examples, none of which reaches it. *)
Definition no_toString : number -> string := fun _ => "".

End Examples.

(* ===================================================================== *)
(** ** Further notions for stating what the code does *)
(* ===================================================================== *)

Module More.
Import JS Types Effects Engine.

(** The action kind whose branch of [executeAction] makes a call. *)
Definition handler_of (c : call) : ActionType :=
  match c with
  | Fetch _ _ => webhook
  | CreateTask _ => create_task
  | AddToSchedule _ => add_to_schedule
  | SendEmail _ _ _ => send_email
  | DeductInventoryForJob _ => update_inventory
  end.

Definition is_call (e : event) : bool :=
  match e with Called _ => true | Printed _ _ _ => false end.

(** The number of calls among events. *)
Definition calls_in (evs : list event) : nat :=
  List.length (filter is_call evs).

(** A program without any call. *)
Inductive quiet {A : Type} : prog A -> Prop :=
| quiet_Ret a : quiet (Ret a)
| quiet_Fail e : quiet (Fail e)
| quiet_Print l msg arg k : quiet k -> quiet (Print l msg arg k)
| quiet_Await k : (forall s, quiet (k s)) -> quiet (Await k)
| quiet_Today k : (forall d, quiet (k d)) -> quiet (Today k).

(** A program that makes at most one call, and none after an [await]. *)
Inductive tidy {A : Type} : prog A -> Prop :=
| tidy_Ret a : tidy (Ret a)
| tidy_Fail e : tidy (Fail e)
| tidy_Print l msg arg k : tidy k -> tidy (Print l msg arg k)
| tidy_Call c k : (forall r, quiet (k r)) -> tidy (Call c k)
| tidy_Await k : (forall s, quiet (k s)) -> tidy (Await k)
| tidy_Today k : (forall d, tidy (k d)) -> tidy (Today k).

(** [l] is [m] with some elements left out. *)
Inductive subsequence {A : Type} : list A -> list A -> Prop :=
| subsequence_nil : subsequence [] []
| subsequence_keep x l m : subsequence l m -> subsequence (x :: l) (x :: m)
| subsequence_drop x l m : subsequence l m -> subsequence l (x :: m).

(** The test of the filter of [processAutomations]. *)
Definition listens (triggerType : TriggerType) (a : Automation) : bool :=
  is_enabled a && TriggerType_eqb (trigger_type a) triggerType.

(** Neither bound of the rule is checked. *)
Definition unbounded (a : Automation) : bool :=
  negb (truthy truthy_number (job_value_min (trigger_config a)))
  && negb (truthy truthy_number (job_value_max (trigger_config a))).

(** The elements of [l] before the first one on which [f] fails. *)
Fixpoint take_while {A : Type} (f : A -> bool) (l : list A) : list A :=
  match l with
  | [] => []
  | x :: rest => if f x then x :: take_while f rest else []
  end.

(** A rule with other display metadata and generic conditions. *)
Definition relabel (i : option number) (d : option string)
    (c : option (list Condition)) (a : Automation) : Automation :=
  {| id := i; name := name a; description := d;
     trigger_type := trigger_type a; trigger_config := trigger_config a;
     action_type := action_type a; action_config := action_config a;
     conditions := c; is_enabled := is_enabled a |}.

(** What a dispatch did, without the rule it was for. *)
Definition deeds (ds : list Dispatch) : list (any * mode) :=
  map (fun d => (payload d, how d)) ds.

(** Two states of a pass that differ at most in the rules that the
    dispatches are recorded for. *)
Definition alike {H : Type} (w w' : world H) : Prop :=
  outside w = outside w' /\ trace w = trace w'
  /\ deeds (dispatched w) = deeds (dispatched w').

End More.

Module MoreExamples.
Import JS Types Effects Engine.

(** A webhook rule with a url. *)
Definition hook_rule : Automation :=
  Examples.a_rule "Hook" scheduled_time Examples.no_trigger_config webhook
    {| url := Some "https://example.org/hook"; task_title := None;
       task_description := None; task_priority := None;
       email_subject := None; email_body := None; email_recipient := None;
       custom_email := None; sms_message := None; sms_recipient := None;
       custom_phone := None; new_status := None; team_ids := None;
       delay_minutes := None |}.

(** An email rule with the recipient [r], the address [own] of its own
    and the subject [subject]. *)
Definition email_rule (r : option Recipient) (own subject : option string)
  : Automation :=
  Examples.a_rule "Mail" new_customer Examples.no_trigger_config send_email
    {| url := None; task_title := None; task_description := None;
       task_priority := None; email_subject := subject; email_body := None;
       email_recipient := r; custom_email := own; sms_message := None;
       sms_recipient := None; custom_phone := None; new_status := None;
       team_ids := None; delay_minutes := None |}.

(** A customer record with a name and an email address. *)
Definition customer_record (n e : string) : Data.t :=
  {| Data.calcData := None; Data.costsData := None;
     Data.estimateNumber := None; Data.status := None;
     Data.name := Some n; Data.address := None; Data.email := Some e;
     Data.estimateNumber_undefined := false |}.

(** [{estimateNumber: undefined}]: a record that has the property, with
    nothing in it. *)
Definition unnumbered_job : Data.t :=
  {| Data.calcData := None; Data.costsData := None;
     Data.estimateNumber := None; Data.status := None;
     Data.name := None; Data.address := None; Data.email := None;
     Data.estimateNumber_undefined := true |}.

End MoreExamples.

(* ===================================================================== *)
(** ** Properties *)
(* ===================================================================== *)

Module Numbers.
Import JS.

Lemma lt_not_ge (x y : number) :
  is_nan x = false -> is_nan y = false -> lt x y = negb (ge x y).
Proof.
  unfold lt, ge, SFltb, SFleb, SFcompare.
  destruct x as [sx|sx| |sx mx ex], y as [sy|sy| |sy my ey]; simpl;
    try discriminate; intros _ _;
    try (destruct sx; try destruct sy; reflexivity).
  destruct sx, sy; try reflexivity;
    rewrite (Z.compare_antisym ex ey); destruct (ex ?= ey)%Z; simpl;
    try reflexivity;
    change PosDef.Pos.compare_cont with Pos.compare_cont;
    rewrite (ZC4 my mx);
    destruct (Pos.compare_cont Eq mx my); reflexivity.
Qed.

Lemma gt_not_le (x y : number) :
  is_nan x = false -> is_nan y = false -> gt x y = negb (le x y).
Proof.
  intros Hx Hy. unfold gt, le. apply (lt_not_ge y x Hy Hx).
Qed.

(** [q || 0] compares like [q], or like 0 when [q] is absent or NaN. *)
Lemma or_num_compare (q : option number) (y : number) :
  SFcompare (or_num q (num 0)) y
  = SFcompare (match q with
               | Some x => if is_nan x then num 0 else x
               | None => num 0
               end) y.
Proof. destruct q as [[s|s| |s m e]|]; reflexivity. Qed.

Lemma or_num_compare_r (q : option number) (x : number) :
  SFcompare x (or_num q (num 0))
  = SFcompare x (match q with
                 | Some x => if is_nan x then num 0 else x
                 | None => num 0
                 end).
Proof. destruct q as [[s|s| |s m e]|]; reflexivity. Qed.

Lemma or_num_lt (q : option number) (y : number) :
  lt (or_num q (num 0)) y
  = lt (match q with
        | Some x => if is_nan x then num 0 else x
        | None => num 0
        end) y.
Proof. unfold lt, SFltb. rewrite (or_num_compare q y). reflexivity. Qed.

Lemma or_num_gt (q : option number) (y : number) :
  gt (or_num q (num 0)) y
  = gt (match q with
        | Some x => if is_nan x then num 0 else x
        | None => num 0
        end) y.
Proof. unfold gt, SFltb. rewrite (or_num_compare_r q y). reflexivity. Qed.

(** A number is truthy exactly when, as a bound, it is set. *)
Lemma truthy_unset (x : number) : truthy_number x = negb (Spec.unset (Some x)).
Proof. destruct x; reflexivity. Qed.

Lemma truthy_not_nan (x : number) : truthy_number x = true -> is_nan x = false.
Proof. destruct x; simpl; congruence. Qed.

(** A bound that is absent or zero is unset. *)
Lemma absent_or_zero_unset (bound : option number) :
  Spec.absent_or_zero bound = true -> Spec.unset bound = true.
Proof. destruct bound as [[s|s| |s m e]|]; simpl; congruence. Qed.

End Numbers.

(** *** Strings *)

Module Strings.
Import JS.

Lemma append_assoc (a b c : string) : (a ++ b) ++ c = a ++ (b ++ c).
Proof. induction a as [|x a IH]; cbn; [reflexivity | rewrite IH; reflexivity]. Qed.

Lemma append_nil_r (a : string) : a ++ "" = a.
Proof. induction a as [|x a IH]; cbn; [reflexivity | rewrite IH; reflexivity]. Qed.

Lemma length_append (a b : string) : length (a ++ b) = length a + length b.
Proof. induction a as [|x a IH]; cbn; [reflexivity | rewrite IH; reflexivity]. Qed.

Lemma has_char_append (c : ascii) (a b : string) :
  Spec.has_char c (a ++ b) = Spec.has_char c a || Spec.has_char c b.
Proof.
  induction a as [|x a IH]; cbn; [reflexivity|].
  rewrite IH, orb_assoc. reflexivity.
Qed.

Lemma has_char_head (c x : ascii) (s : string) :
  Spec.has_char c (String x s) = false -> x <> c /\ Spec.has_char c s = false.
Proof.
  cbn. intros Hf. apply orb_false_iff in Hf. destruct Hf as [Hx Hs].
  split; [|exact Hs]. apply Ascii.eqb_neq. exact Hx.
Qed.

(** A replacement without a dollar sign is put in as it is. *)
Lemma GetSubstitution_plain (matched before after template : string) :
  Spec.has_char "$" template = false ->
  GetSubstitution matched before after template = template.
Proof.
  induction template as [|c rest IH]; cbn; [reflexivity|].
  intros Hf. apply orb_false_iff in Hf. destruct Hf as [Hc Hrest].
  rewrite Hc, (IH Hrest). reflexivity.
Qed.

(** [replace] is a scan for its pattern. *)
Lemma replace_from_scan (pat replacement : string) :
  forall s before skip,
    replace_from pat replacement before skip s
    = Spec.scan (Spec.replace_match pat replacement) before skip s.
Proof.
  induction s as [|c s IH]; intros before skip; cbn [replace_from Spec.scan];
    [reflexivity|].
  destruct skip as [|k]; [|apply IH].
  unfold Spec.replace_match at 1.
  destruct (prefix pat (String c s)); rewrite IH; reflexivity.
Qed.

(** The characters of a match are passed over. *)
Lemma scan_skip (m : string -> string -> option (nat * string)) :
  forall u before rest,
    Spec.scan m before (length u) (u ++ rest)
    = Spec.scan m (before ++ u) 0 rest.
Proof.
  induction u as [|c u IH]; intros before rest; cbn [length append Spec.scan].
  - rewrite append_nil_r. destruct rest; reflexivity.
  - rewrite IH, append_assoc. reflexivity.
Qed.

(** Text without an opening bracket is kept. *)
Lemma scan_text (m : string -> string -> option (nat * string)) :
  (forall before c s, c <> "["%char -> m before (String c s) = None) ->
  forall u before rest,
    Spec.has_char "[" u = false ->
    Spec.scan m before 0 (u ++ rest) = u ++ Spec.scan m (before ++ u) 0 rest.
Proof.
  intros Hm. induction u as [|c u IH]; intros before rest Hu.
  - cbn. rewrite append_nil_r. reflexivity.
  - apply has_char_head in Hu. destruct Hu as [Hc Hu].
    cbn [append Spec.scan]. rewrite (Hm before c _ Hc).
    rewrite (IH _ rest Hu), append_assoc. reflexivity.
Qed.

(** A scan that reads tokens expands a template piece by piece. *)
Lemma scan_chunks (m : string -> string -> option (nat * string))
    (value : string -> option string) :
  Spec.reads_tokens m value ->
  forall cs before,
    Forall Spec.plain cs ->
    Spec.scan m before 0 (Spec.render cs) = Spec.expand_all value cs.
Proof.
  intros [Hhead Htoken]. induction cs as [|c cs IH]; intros before Hcs.
  - reflexivity.
  - inversion Hcs as [|c' cs' Hc Hcs']; subst.
    destruct c as [u|w]; cbn [Spec.render Spec.render_chunk Spec.expand_all Spec.expand].
    + rewrite (scan_text m Hhead u before _ Hc), (IH _ Hcs'). reflexivity.
    + destruct Hc as [Hopen Hclose].
      pose proof (Htoken before w (Spec.render cs) Hopen Hclose) as Hm.
      unfold Spec.bracketed in Hm |- *. cbn [append] in Hm |- *.
      cbn [Spec.scan]. rewrite Hm.
      destruct (value w) as [v|].
      * cbn [length]. rewrite Nat.sub_1_r. cbn [Nat.pred].
        rewrite scan_skip, (IH _ Hcs'). reflexivity.
      * rewrite (scan_text m Hhead (w ++ "]") _ _).
        -- rewrite (IH _ Hcs'). reflexivity.
        -- rewrite has_char_append, Hopen. reflexivity.
Qed.

Lemma prefix_cons (a c : ascii) (s1 s2 : string) :
  prefix (String a s1) (String c s2)
  = if Ascii.eqb a c then prefix s1 s2 else false.
Proof.
  cbn [prefix]. destruct (ascii_dec a c) as [->|Hne].
  - rewrite Ascii.eqb_refl. reflexivity.
  - apply Ascii.eqb_neq in Hne. rewrite Hne. reflexivity.
Qed.

Lemma prefix_nil (s : string) : prefix "" s = true.
Proof. destruct s; reflexivity. Qed.

(** Between two names without a closing bracket, the first closing
    bracket decides. *)
Lemma prefix_closing (n w rest : string) :
  Spec.has_char "]" n = false -> Spec.has_char "]" w = false ->
  prefix (n ++ "]") ((w ++ "]") ++ rest) = (n =? w)%string.
Proof.
  revert w. induction n as [|a n IH]; intros [|c w] Hn Hw;
    cbn [append String.eqb]; rewrite ?prefix_cons.
  - rewrite Ascii.eqb_refl. apply prefix_nil.
  - apply has_char_head in Hw. destruct Hw as [Hc _].
    apply not_eq_sym, Ascii.eqb_neq in Hc. rewrite Hc. reflexivity.
  - apply has_char_head in Hn. destruct Hn as [Ha _].
    apply Ascii.eqb_neq in Ha. rewrite Ha. reflexivity.
  - apply has_char_head in Hn. destruct Hn as [_ Hn].
    apply has_char_head in Hw. destruct Hw as [_ Hw].
    rewrite (IH w Hn Hw). reflexivity.
Qed.

Lemma prefix_bracketed (n w rest : string) :
  Spec.has_char "]" n = false -> Spec.has_char "]" w = false ->
  prefix (Spec.bracketed n) (Spec.bracketed w ++ rest) = (n =? w)%string.
Proof.
  intros Hn Hw. unfold Spec.bracketed. cbn [append].
  rewrite prefix_cons, Ascii.eqb_refl.
  apply prefix_closing; assumption.
Qed.

Lemma prefix_bracketed_head (n : string) (c : ascii) (s : string) :
  c <> "["%char -> prefix (Spec.bracketed n) (String c s) = false.
Proof.
  intros Hc. unfold Spec.bracketed. cbn [append].
  rewrite prefix_cons.
  apply not_eq_sym, Ascii.eqb_neq in Hc. rewrite Hc. reflexivity.
Qed.

(** One pass of [replace] for the token [[n]] with a clean value [v]
    reads the token [[n]] as [v] and no other token. *)
Lemma replace_match_reads (n v : string) :
  Spec.has_char "]" n = false -> Spec.has_char "$" v = false ->
  Spec.reads_tokens (Spec.replace_match (Spec.bracketed n) v) (Spec.only n v).
Proof.
  intros Hn Hv. split.
  - intros before c s Hc. unfold Spec.replace_match.
    rewrite (prefix_bracketed_head n c s Hc). reflexivity.
  - intros before w rest Hopen Hclose. unfold Spec.replace_match, Spec.only.
    rewrite (prefix_bracketed n w rest Hn Hclose).
    destruct (n =? w)%string eqn:E; [|reflexivity].
    apply String.eqb_eq in E. subst w.
    rewrite (GetSubstitution_plain _ _ _ _ Hv). reflexivity.
Qed.

(** After the pass the template is the one with the token put in. *)
Lemma expand_only_put (n v : string) (cs : list Spec.chunk) :
  Spec.expand_all (Spec.only n v) cs = Spec.render (map (Spec.put n v) cs).
Proof.
  induction cs as [|c cs IH]; cbn; [reflexivity|].
  rewrite IH. destruct c as [u|w]; cbn; [reflexivity|].
  unfold Spec.only. destruct (n =? w)%string; reflexivity.
Qed.

Lemma put_plain (n v : string) (cs : list Spec.chunk) :
  Spec.has_char "[" v = false ->
  Forall Spec.plain cs -> Forall Spec.plain (map (Spec.put n v) cs).
Proof.
  intros Hv Hcs. induction Hcs as [|c cs Hc Hcs IH]; cbn; constructor; auto.
  destruct c as [u|w]; cbn; [exact Hc|].
  destruct (n =? w)%string; [exact Hv | exact Hc].
Qed.

Lemma replace_chunks (n v : string) (cs : list Spec.chunk) :
  Spec.has_char "]" n = false -> Spec.clean v -> Forall Spec.plain cs ->
  replace (Spec.bracketed n) v (Spec.render cs)
  = Spec.render (map (Spec.put n v) cs)
  /\ Forall Spec.plain (map (Spec.put n v) cs).
Proof.
  intros Hn [Hdollar Hopen] Hcs. split.
  - unfold replace. rewrite replace_from_scan.
    rewrite (scan_chunks _ _ (replace_match_reads n v Hn Hdollar) cs "" Hcs).
    apply expand_only_put.
  - apply put_plain; assumption.
Qed.

End Strings.

(** *** The condition checks of the matcher *)

Module Matcher.
Import JS Types Effects Engine.

Lemma quote_or_zero_not_nan (d : Data.t) : is_nan (Spec.quote_or_zero d) = false.
Proof.
  unfold Spec.quote_or_zero.
  destruct (chain (Data.costsData d) finalQuote) as [[s|s| |s m e]|];
    reflexivity.
Qed.

Lemma status_is_eq (s t : option string) : Spec.status_is s t = true <-> s = t.
Proof.
  destruct s as [s|], t as [t|]; simpl; try (split; congruence).
  destruct (string_dec s t); split; congruence.
Qed.

Lemma strict_eq_status_is (s t : option string) :
  strict_eq s t = Spec.status_is s t.
Proof.
  destruct s as [s|], t as [t|]; simpl; try reflexivity.
  destruct (string_dec s t) as [->|Hne].
  - apply String.eqb_refl.
  - apply String.eqb_neq. exact Hne.
Qed.

(** The check of the lower bound leaves [shouldRun] as it is when the
    bound passes and clears it otherwise. *)
Lemma check_lower (config : TriggerConfig) (d : Data.t) (guard run : bool) :
  (run = true -> guard = true) ->
  check_bound guard (job_value_min config) lt (Some d) run
  = Ok (run && Spec.min_passes config d).
Proof.
  intros Hg. unfold check_bound, Spec.min_passes.
  destruct (job_value_min config) as [b|].
  2:{ cbn. rewrite andb_true_r. reflexivity. }
  pose proof (Numbers.truthy_not_nan b) as Hb.
  rewrite (Numbers.truthy_unset b) in Hb |- *.
  destruct (Spec.unset (Some b)); cbn [negb orb] in Hb |- *.
  - rewrite andb_false_r, andb_true_r. reflexivity.
  - rewrite andb_true_r. destruct guard.
    + cbn [bind jobValue].
      rewrite (Numbers.or_num_lt _ b).
      pose proof (Numbers.lt_not_ge _ _ (quote_or_zero_not_nan d) (Hb eq_refl))
        as E.
      unfold Spec.quote_or_zero in E |- *. rewrite E.
      destruct (ge _ b), run; reflexivity.
    + destruct run; [discriminate (Hg eq_refl) | reflexivity].
Qed.

Lemma check_upper (config : TriggerConfig) (d : Data.t) (guard run : bool) :
  (run = true -> guard = true) ->
  check_bound guard (job_value_max config) gt (Some d) run
  = Ok (run && Spec.max_passes config d).
Proof.
  intros Hg. unfold check_bound, Spec.max_passes.
  destruct (job_value_max config) as [b|].
  2:{ cbn. rewrite andb_true_r. reflexivity. }
  pose proof (Numbers.truthy_not_nan b) as Hb.
  rewrite (Numbers.truthy_unset b) in Hb |- *.
  destruct (Spec.unset (Some b)); cbn [negb orb] in Hb |- *.
  - rewrite andb_false_r, andb_true_r. reflexivity.
  - rewrite andb_true_r. destruct guard.
    + cbn [bind jobValue].
      rewrite (Numbers.or_num_gt _ b).
      pose proof (Numbers.gt_not_le _ _ (quote_or_zero_not_nan d) (Hb eq_refl))
        as E.
      unfold Spec.quote_or_zero in E |- *. rewrite E.
      destruct (le _ b), run; reflexivity.
    + destruct run; [discriminate (Hg eq_refl) | reflexivity].
Qed.

(** A bound that is unset is not checked at all, whatever the payload. *)
Lemma check_bound_unset (guard : bool) (bound : option number)
    (outside : number -> number -> bool) (job : any) (run : bool) :
  Spec.unset bound = true ->
  check_bound guard bound outside job run = Ok run.
Proof.
  unfold check_bound. destruct bound as [[s|s| |s m e]|]; simpl;
    try discriminate; intros _; try reflexivity;
    rewrite andb_false_r; reflexivity.
Qed.

Lemma shouldRun_job_created (a : Automation) (d : Data.t) :
  shouldRun job_created a (Some d) = Ok (Spec.bounds_pass (trigger_config a) d).
Proof.
  unfold shouldRun, Spec.bounds_pass.
  rewrite (check_lower _ d true true (fun _ => eq_refl)). cbn [bind andb].
  apply (check_upper _ d true _ (fun _ => eq_refl)).
Qed.

Lemma shouldRun_job_status_updated (a : Automation) (d : Data.t) :
  shouldRun job_status_updated a (Some d)
  = Ok (Spec.status_is (Data.status d) (to_status (trigger_config a))
        && Spec.bounds_pass (trigger_config a) d).
Proof.
  unfold shouldRun, Spec.bounds_pass. cbv zeta.
  rewrite <- strict_eq_status_is.
  replace (if strict_eq (Data.status d) (to_status (trigger_config a))
           then if truthy truthy_string (from_status (trigger_config a))
                then true else true
           else false)
    with (strict_eq (Data.status d) (to_status (trigger_config a)))
    by (destruct (strict_eq _ _); [destruct (truthy truthy_string _)|]; reflexivity).
  rewrite (check_lower _ d _ _ (fun H => H)). cbn [bind].
  rewrite (check_upper _ d _ _ (fun H => H)).
  rewrite andb_assoc. reflexivity.
Qed.

(** A [job_created] rule whose bounds are unset passes on every payload,
    a missing one included. *)
Lemma shouldRun_job_created_unset (a : Automation) (data : any) :
  Spec.unset (job_value_min (trigger_config a)) = true ->
  Spec.unset (job_value_max (trigger_config a)) = true ->
  shouldRun job_created a data = Ok true.
Proof.
  intros Hmin Hmax. unfold shouldRun.
  rewrite (check_bound_unset _ _ _ _ _ Hmin). cbn [bind].
  apply (check_bound_unset _ _ _ _ _ Hmax).
Qed.

(** The kinds that do not look at the payload. *)
Lemma shouldRun_other (kind : TriggerType) (a : Automation) (data : any) :
  kind <> job_created -> kind <> job_status_updated ->
  shouldRun kind a data = Ok true.
Proof. destruct kind; intros H1 H2; try reflexivity; congruence. Qed.

(** On a payload that is a record the checks end, with the condition as
    their verdict. *)
Lemma shouldRun_condition (kind : TriggerType) (a : Automation) (d : Data.t) :
  shouldRun kind a (Some d)
  = Ok (Spec.condition_passes kind (trigger_config a) (Some d)).
Proof.
  destruct kind; try reflexivity.
  - apply shouldRun_job_status_updated.
  - apply shouldRun_job_created.
Qed.

(** C2, with what is not a number taken into account. A [job_created]
    rule matches a job exactly when the lower bound is absent, zero or NaN
    or the job value is at least the bound, and the upper bound is absent,
    zero or NaN or the job value is at most the bound, the job value being
    the final quote, 0 when it is absent or NaN. A rule with a lower
    bound of 500 and no upper bound does not match a job value of 499.99
    and matches one of 500. Bounds that are absent, zero or NaN filter
    nothing. *)
Theorem job_created_condition :
  (forall (a : Automation) (d : Data.t),
      shouldRun job_created a (Some d)
      = Ok (Spec.bounds_pass (trigger_config a) d))
  /\ (forall a : Automation,
      job_value_min (trigger_config a) = Some (num 500) ->
      job_value_max (trigger_config a) = None ->
      shouldRun job_created a (Some (Examples.job_quoted num_499_99)) = Ok false
      /\ shouldRun job_created a (Some (Examples.job_quoted (num 500))) = Ok true)
  /\ (forall (a : Automation) (d : Data.t),
      Spec.unset (job_value_min (trigger_config a)) = true ->
      Spec.unset (job_value_max (trigger_config a)) = true ->
      shouldRun job_created a (Some d) = Ok true).
Proof.
  split; [exact shouldRun_job_created | split].
  - intros a Hmin Hmax. unfold shouldRun. rewrite Hmin, Hmax. split; reflexivity.
  - intros a d Hmin Hmax. apply shouldRun_job_created_unset; assumption.
Qed.

Lemma job_created_condition_witness :
  (shouldRun job_created Examples.rule_min_500
     (Some (Examples.job_quoted num_499_99)) = Ok false
   /\ shouldRun job_created Examples.rule_min_500
        (Some (Examples.job_quoted (num 500))) = Ok true)
  /\ shouldRun job_created (Examples.bounded_rule (Some S754_nan) (Some (num 0)))
       (Some (Examples.job_quoted (num 500))) = Ok true.
Proof.
  split.
  - apply (proj1 (proj2 job_created_condition) Examples.rule_min_500);
      reflexivity.
  - apply (proj2 (proj2 job_created_condition)); reflexivity.
Defined.

(** C2, as it is stated, fails on the code. A final quote that is NaN is
    taken as 0, so that a job with such a quote passes an upper bound of
    500, and a bound that is NaN is not checked, so that it lets every
    job pass; by the condition as stated, with the final quote as the job
    value and every bound but an absent or zero one compared, neither
    job matches. *)
Lemma job_created_condition_not_as_stated :
  (shouldRun job_created (Examples.bounded_rule None (Some (num 500)))
     (Some (Examples.job_quoted S754_nan)) = Ok true
   /\ Spec.bounds_hold
        (trigger_config (Examples.bounded_rule None (Some (num 500))))
        (Examples.job_quoted S754_nan) = false)
  /\ (shouldRun job_created (Examples.bounded_rule (Some S754_nan) None)
        (Some (Examples.job_quoted (num 500))) = Ok true
      /\ Spec.bounds_hold
           (trigger_config (Examples.bounded_rule (Some S754_nan) None))
           (Examples.job_quoted (num 500)) = false).
Proof. repeat split; reflexivity. Qed.

(** C3, with what is not a number taken into account. A
    [job_status_updated] rule matches a job exactly when the job's status
    equals the configured [to_status] and the job-value bounds pass as for
    [job_created], a bound or a final quote that is NaN counting as
    absent. The configured [from_status] has no effect: a rule with
    [to_status] "sold" and no bounds matches every job whose status is
    "sold". *)
Theorem job_status_updated_condition :
  (forall (a : Automation) (d : Data.t),
      shouldRun job_status_updated a (Some d)
      = Ok (Spec.status_is (Data.status d) (to_status (trigger_config a))
            && Spec.bounds_pass (trigger_config a) d))
  /\ (forall (a : Automation) (data : any) (from : option string),
      shouldRun job_status_updated (with_from_status from a) data
      = shouldRun job_status_updated a data)
  /\ (forall (a : Automation) (d : Data.t),
      to_status (trigger_config a) = Some "sold" ->
      Data.status d = Some "sold" ->
      Spec.unset (job_value_min (trigger_config a)) = true ->
      Spec.unset (job_value_max (trigger_config a)) = true ->
      shouldRun job_status_updated a (Some d) = Ok true).
Proof.
  split; [exact shouldRun_job_status_updated | split].
  - intros a data from. destruct data as [d|]; [|reflexivity].
    unfold shouldRun, with_from_status. cbn.
    destruct (strict_eq _ _); [|reflexivity].
    destruct from as [f|], (from_status (trigger_config a)) as [g|]; cbn;
      repeat match goal with
             | |- context [truthy_string ?s] => destruct (truthy_string s)
             end; reflexivity.
  - intros a d Hto Hst Hmin Hmax. unfold shouldRun. cbv zeta.
    rewrite Hto, Hst. cbn [strict_eq]. rewrite String.eqb_refl.
    rewrite (check_bound_unset _ _ _ _ _ Hmin). cbn [bind].
    rewrite (check_bound_unset _ _ _ _ _ Hmax).
    destruct (truthy _ _); reflexivity.
Qed.

Lemma job_status_updated_condition_witness :
  shouldRun job_status_updated (Examples.rule_to_sold (Some "estimate"))
    (Some (Examples.job_in_status "sold")) = Ok true.
Proof.
  apply (proj2 (proj2 job_status_updated_condition)); reflexivity.
Defined.

(** C3, as it is stated, fails on the code, through the bounds: a sold
    job whose final quote is NaN passes an upper bound of 500, and a
    lower bound that is NaN lets a sold job pass; by the condition as
    stated neither job matches. *)
Lemma job_status_updated_condition_not_as_stated :
  (shouldRun job_status_updated
     (Examples.sold_bounded_rule None (Some (num 500)))
     (Some (Examples.sold_job_quoted S754_nan)) = Ok true
   /\ Spec.status_is (Data.status (Examples.sold_job_quoted S754_nan))
        (to_status
           (trigger_config (Examples.sold_bounded_rule None (Some (num 500)))))
      && Spec.bounds_hold
           (trigger_config (Examples.sold_bounded_rule None (Some (num 500))))
           (Examples.sold_job_quoted S754_nan) = false)
  /\ (shouldRun job_status_updated
        (Examples.sold_bounded_rule (Some S754_nan) None)
        (Some (Examples.sold_job_quoted (num 500))) = Ok true
      /\ Spec.status_is (Data.status (Examples.sold_job_quoted (num 500)))
           (to_status
              (trigger_config (Examples.sold_bounded_rule (Some S754_nan) None)))
         && Spec.bounds_hold
              (trigger_config (Examples.sold_bounded_rule (Some S754_nan) None))
              (Examples.sold_job_quoted (num 500)) = false).
Proof. repeat split; reflexivity. Qed.

End Matcher.
(** *** executeAction *)

Module Actions.
Import JS Types Effects Engine.

Lemma try_catch_no_throw {A} (p : prog A) (handler : error -> prog A) :
  (forall e, no_throw (handler e)) -> no_throw (try_catch p handler).
Proof.
  intros Hh. induction p; cbn; try (constructor; auto); auto.
Qed.

(** Nothing thrown inside [executeAction] leaves it: its promise is never
    rejected. *)
Lemma executeAction_no_throw (N : number -> string) (a : Automation) (data : any) :
  no_throw (executeAction N a data).
Proof.
  unfold executeAction. apply try_catch_no_throw.
  intros e. repeat constructor.
Qed.

(** A program that throws nothing completes normally, or waits with a
    rest that throws nothing. *)
Lemma no_throw_run {H A} (handlers : ActionHandlers H) (globals : Globals H)
    (p : prog A) :
  no_throw p ->
  forall h, match run handlers globals p h with
            | (_, Completed r, _) => exists a, r = Ok a
            | (_, Suspended k, _) => forall s, no_throw (k s)
            end.
Proof.
  induction 1 as [a|l msg arg k Hk IH|c k Hk IH|k Hk IH|k Hk IH]; intros h; cbn.
  - exists a. reflexivity.
  - specialize (IH h). destruct (run handlers globals k h) as [[evs s] h'].
    exact IH.
  - destruct (respond handlers globals c h) as [r h1].
    specialize (IH r h1).
    destruct (run handlers globals (k r) h1) as [[evs s] h2]. exact IH.
  - exact Hk.
  - destruct (today globals h) as [d h1]. apply IH.
Qed.

(** A call seen in a run is a call of the program. *)
Lemma run_calls {H A} (handlers : ActionHandlers H) (globals : Globals H)
    (c : call) (p : prog A) :
  forall h, In (Called c) (fst (fst (run handlers globals p h))) -> calls c p.
Proof.
  induction p as [a|e|l msg arg k IH|c' k IH|k IH|k IH]; intros h; cbn.
  - intros [].
  - intros [].
  - specialize (IH h). destruct (run handlers globals k h) as [[evs s] h'].
    cbn in *. intros [Heq|Hin]; [discriminate|].
    apply calls_Print. auto.
  - destruct (respond handlers globals c' h) as [r h1].
    specialize (IH r h1).
    destruct (run handlers globals (k r) h1) as [[evs s] h2].
    cbn in *. intros [Heq|Hin].
    + injection Heq as ->. apply calls_here.
    + apply calls_Call with r. auto.
  - intros [].
  - destruct (today globals h) as [d h1]. intros Hin.
    apply calls_Today with d. eauto.
Qed.

Lemma replacePlaceholders_record (N : number -> string) (text : string) (d : Data.t) :
  exists s, replacePlaceholders N text (Some d) = Ok s.
Proof.
  unfold replacePlaceholders. destruct (negb (truthy_string text)); eauto.
Qed.

Lemma calls_pbind {A B} (c : call) (p : prog A) (f : A -> prog B) :
  calls c (pbind p f) -> calls c p \/ exists a, calls c (f a).
Proof.
  induction p as [a|e|l msg arg k IH|c' k IH|k IH|k IH]; cbn; intros Hc.
  - right. exists a. exact Hc.
  - inversion Hc.
  - inversion Hc; subst. destruct (IH H0) as [Hk|Hf]; [left|right]; auto.
    apply calls_Print. exact Hk.
  - inversion Hc; subst.
    + left. apply calls_here.
    + destruct (IH _ H0) as [Hk|Hf]; [left|right]; auto.
      apply calls_Call with r. exact Hk.
  - inversion Hc; subst. destruct (IH _ H0) as [Hk|Hf]; [left|right]; auto.
    apply calls_Await with s. exact Hk.
  - inversion Hc; subst. destruct (IH _ H0) as [Hk|Hf]; [left|right]; auto.
    apply calls_Today with d. exact Hk.
Qed.

Lemma calls_try_catch {A} (c : call) (p : prog A) (handler : error -> prog A) :
  calls c (try_catch p handler) -> calls c p \/ exists e, calls c (handler e).
Proof.
  induction p as [a|e|l msg arg k IH|c' k IH|k IH|k IH]; cbn; intros Hc.
  - inversion Hc.
  - right. exists e. exact Hc.
  - inversion Hc; subst. destruct (IH H0) as [Hk|Hf]; [left|right]; auto.
    apply calls_Print. exact Hk.
  - inversion Hc; subst.
    + left. apply calls_here.
    + destruct (IH _ H0) as [Hk|Hf]; [left|right]; auto.
      apply calls_Call with r. exact Hk.
  - inversion Hc; subst. destruct (IH _ H0) as [Hk|Hf]; [left|right]; auto.
    apply calls_Await with s. exact Hk.
  - inversion Hc; subst. destruct (IH _ H0) as [Hk|Hf]; [left|right]; auto.
    apply calls_Today with d. exact Hk.
Qed.

(** Closes a goal with a hypothesis that a program without calls makes
    one. *)
Ltac no_calls :=
  repeat match goal with
         | H : calls _ (try_catch _ _) |- _ =>
           apply calls_try_catch in H; destruct H as [H|[? H]]
         | H : calls _ (pbind _ _) |- _ =>
           apply calls_pbind in H; destruct H as [H|[? H]]
         | H : calls _ (match ?r with Threw _ => _ | Returned => _ end) |- _ =>
           destruct r
         | H : calls _ (match ?s with Fulfilled => _ | Rejected _ => _ end) |- _ =>
           destruct s
         | H : calls _ (lift ?r) |- _ => destruct r; cbn in H
         | H : calls _ (Ret _) |- _ => inversion H
         | H : calls _ (Fail _) |- _ => inversion H
         | H : calls _ await |- _ => unfold await in H
         | H : calls _ (console_log _) |- _ => unfold console_log in H
         | H : calls _ (console_warn _) |- _ => unfold console_warn in H
         | H : calls _ (console_error _ _) |- _ => unfold console_error in H
         | H : calls _ (Print _ _ _ _) |- _ => inversion H; subst; clear H
         | H : calls _ (Await _) |- _ => inversion H; subst; clear H
         end.

(** C7. A webhook rule without a url (none, or the empty string) does
    nothing at all when it is executed: no request is made and nothing is
    printed, neither a skip nor a failure. *)
Theorem webhook_without_url_does_nothing :
  forall (N : number -> string) (a : Automation) (data : any),
    action_type a = webhook ->
    truthy truthy_string (url (action_config a)) = false ->
    executeAction N a data = Ret tt.
Proof.
  intros N a data Hkind Hurl. unfold executeAction. rewrite Hkind.
  destruct (url (action_config a)) as [u|]; cbn in Hurl |- *.
  - rewrite Hurl. reflexivity.
  - reflexivity.
Qed.

Lemma webhook_without_url_does_nothing_witness :
  executeAction Examples.no_toString (Examples.bare_rule webhook)
    (Some Examples.empty_record) = Ret tt.
Proof.
  apply webhook_without_url_does_nothing; reflexivity.
Defined.

(** The skips that are reported: a [send_email] rule without a recipient
    and an [update_inventory] rule on a payload without a job number each
    print a warning that says the rule was skipped. *)
Lemma reported_skips (N : number -> string) :
  executeAction N (Examples.bare_rule send_email) (Some Examples.empty_record)
  = console_warn ("Automation " ++ quoted "Bare"
                  ++ " skipped: No email recipient found.")
  /\ executeAction N (Examples.bare_rule update_inventory)
       (Some Examples.empty_record)
     = console_warn
         ("Automation " ++ quoted "Bare"
          ++ " skipped: 'update_inventory' action can only be triggered by job-related events.").
Proof. split; reflexivity. Qed.

(** C9. Executing a rule whose action is [send_sms], [update_job_status],
    [assign_team] or [create_invoice] prints one message at the log level,
    which says that the action is not implemented, and does nothing else:
    no handler is called and no error is raised or printed. *)
Theorem unwired_action_reports_no_op :
  forall (N : number -> string) (a : Automation) (data : any),
    In (action_type a) [send_sms; update_job_status; assign_team; create_invoice] ->
    exists msg : string,
      Spec.says_not_done msg
      /\ executeAction N a data = console_log msg
      /\ forall H (handlers : ActionHandlers H) (globals : Globals H) (h : H),
           run handlers globals (executeAction N a data) h
           = ([Printed Log msg None], Completed (Ok tt), h).
Proof.
  intros N a data Hin. unfold executeAction.
  cbn in Hin. destruct Hin as [Hk|[Hk|[Hk|[Hk|[]]]]]; rewrite <- Hk;
    eexists; (split; [|split; [reflexivity | intros; reflexivity]]).
  - exists ("SMS action triggered for automation " ++ quoted (name a)).
    left. symmetry. apply Strings.append_assoc.
  - exists ("Update job status to "
            ++ quoted (interpolate (new_status (action_config a)))).
    right. symmetry. apply Strings.append_assoc.
  - exists ("Assign team action triggered for automation " ++ quoted (name a)).
    right. symmetry. apply Strings.append_assoc.
  - exists ("Create invoice action triggered for automation " ++ quoted (name a)).
    right. symmetry. apply Strings.append_assoc.
Qed.

Lemma unwired_action_reports_no_op_witness :
  exists msg : string,
    Spec.says_not_done msg
    /\ executeAction Examples.no_toString (Examples.bare_rule send_sms) None
       = console_log msg
    /\ forall H (handlers : ActionHandlers H) (globals : Globals H) (h : H),
         run handlers globals
           (executeAction Examples.no_toString (Examples.bare_rule send_sms) None) h
         = ([Printed Log msg None], Completed (Ok tt), h).
Proof.
  apply unwired_action_reports_no_op. cbn. left. reflexivity.
Defined.

(** C10. An [add_to_schedule] rule calls the schedule handler when the
    payload is truthy and has a nested customer record, and only then;
    otherwise executing it does nothing at all: no call, nothing printed,
    no skip reported. *)
Theorem add_to_schedule_precondition :
  forall (N : number -> string) (a : Automation) (data : any),
    action_type a = add_to_schedule ->
    (Spec.has_customer data = true ->
     forall H (handlers : ActionHandlers H) (globals : Globals H) (h : H),
     exists job evs s h',
       run handlers globals (executeAction N a data) h
       = (Called (AddToSchedule job) :: evs, s, h')
       /\ replacePlaceholders N "[customer_name] - [job_number]" data
          = Ok (Job.name job))
    /\ (Spec.has_customer data = false -> executeAction N a data = Ret tt)
    /\ (forall job, calls (AddToSchedule job) (executeAction N a data) ->
        Spec.has_customer data = true).
Proof.
  intros N a data Hkind.
  assert (Hsilent : Spec.has_customer data = false ->
                    executeAction N a data = Ret tt).
  { unfold executeAction, Spec.has_customer. rewrite Hkind.
    destruct data as [d|]; [|reflexivity].
    destruct (chain (Data.calcData d) customer); [discriminate | reflexivity]. }
  split; [|split; [exact Hsilent|]].
  - unfold executeAction, Spec.has_customer. rewrite Hkind.
    destruct data as [d|]; [|discriminate].
    destruct (chain (Data.calcData d) customer) as [c|]; [|discriminate].
    intros _ H handlers globals h.
    destruct (replacePlaceholders_record N "[customer_name] - [job_number]" d)
      as [jobName HjobName].
    rewrite HjobName. cbn.
    destruct (today globals h) as [start h1].
    destruct (today globals h1) as [end_ h2]. cbn.
    destruct (addToSchedule handlers _ h2) as [r h3].
    destruct (run handlers globals _ h3) as [[evs s] h4].
    do 4 eexists. split; reflexivity.
  - intros job Hcalls. destruct (Spec.has_customer data) eqn:E; [reflexivity|].
    rewrite (Hsilent eq_refl) in Hcalls. inversion Hcalls.
Qed.

Lemma add_to_schedule_precondition_witness :
  exists job evs s h',
    run Examples.willing_handlers Examples.some_globals
      (executeAction Examples.no_toString (Examples.bare_rule add_to_schedule)
         (Some (Examples.job_of "Acme" (Some "1042")))) tt
    = (Called (AddToSchedule job) :: evs, s, h')
    /\ replacePlaceholders Examples.no_toString "[customer_name] - [job_number]"
         (Some (Examples.job_of "Acme" (Some "1042")))
       = Ok (Job.name job).
Proof.
  apply (proj1 (add_to_schedule_precondition Examples.no_toString
                  (Examples.bare_rule add_to_schedule)
                  (Some (Examples.job_of "Acme" (Some "1042"))) eq_refl)).
  reflexivity.
Defined.

(** C8, as the code has it. A [create_task] rule calls the task handler
    only when the configured title is a non-empty string, and then with
    the title that substitution gives, which may be empty; when the
    configured title is missing or empty, executing the rule calls nothing
    and throws nothing. *)
Theorem create_task_precondition :
  forall (N : number -> string) (a : Automation) (data : any),
    action_type a = create_task ->
    (forall t, calls (CreateTask t) (executeAction N a data) ->
       exists raw,
         task_title (action_config a) = Some raw /\ raw <> ""
         /\ replacePlaceholders N raw data = Ok (Task.title t))
    /\ (truthy truthy_string (task_title (action_config a)) = false ->
        executeAction N a data = Ret tt).
Proof.
  intros N a data Hkind. unfold executeAction. rewrite Hkind. split.
  - intros t Hc.
    destruct (task_title (action_config a)) as [raw|]; [|inversion Hc].
    destruct (truthy_string raw) eqn:Hraw; [|inversion Hc].
    exists raw. split; [reflexivity|]. split.
    { intros ->. discriminate Hraw. }
    destruct (replacePlaceholders N raw data) as [title|e];
      cbn [lift pbind try_catch] in Hc; [|no_calls].
    destruct (replacePlaceholders N _ data) as [description|e];
      cbn [lift pbind try_catch] in Hc; [|no_calls].
    unfold invoke in Hc. cbn [pbind try_catch] in Hc.
    inversion Hc; subst; [reflexivity|].
    no_calls.
  - intros Htitle. destruct (task_title (action_config a)) as [raw|];
      cbn in Htitle |- *; [rewrite Htitle|]; reflexivity.
Qed.

Lemma create_task_precondition_witness :
  executeAction Examples.no_toString (Examples.task_rule (Some ""))
    (Some Examples.empty_record) = Ret tt.
Proof.
  apply (proj2 (create_task_precondition Examples.no_toString
                  (Examples.task_rule (Some ""))
                  (Some Examples.empty_record) eq_refl)).
  reflexivity.
Defined.

(** C8, as it is stated, fails on the code. The rule whose title is the
    template "[job_number]", run on a job without a job number, calls the
    task handler with the empty title that substitution gives; and the
    rule without a title prints nothing, so no skip is reported. *)
Lemma create_task_called_with_empty_title :
  replacePlaceholders Examples.no_toString "[job_number]"
    (Some (Examples.job_of "Acme" None)) = Ok ""
  /\ fst (fst (run Examples.willing_handlers Examples.some_globals
                 (executeAction Examples.no_toString
                    (Examples.task_rule (Some "[job_number]"))
                    (Some (Examples.job_of "Acme" None))) tt))
     = [Called (CreateTask {| Task.title := ""; Task.description := "" |})]
  /\ run Examples.willing_handlers Examples.some_globals
       (executeAction Examples.no_toString (Examples.task_rule None)
          (Some (Examples.job_of "Acme" None))) tt
     = ([], Completed (Ok tt), tt).
Proof. repeat split; reflexivity. Qed.

End Actions.


(** *** replacePlaceholders *)

Module Placeholders.
Import JS Types Effects Engine.

(** **** The values that are put in *)

Lemma or_first_present (a b : option string) :
  or_str (or_opt a b) "" = Spec.first_present a b.
Proof.
  unfold or_str, or_opt, truthy, truthy_string, Spec.first_present.
  destruct a as [x|], b as [y|]; cbn;
    try destruct (x =? "")%string eqn:Ex; try destruct (y =? "")%string eqn:Ey;
    cbn; rewrite ?Ex, ?Ey; cbn; try reflexivity;
    try (apply String.eqb_eq in Ex; subst); try (apply String.eqb_eq in Ey; subst);
    reflexivity.
Qed.

Lemma or_str_empty (a : option string) :
  or_str a "" = match a with Some x => x | None => "" end.
Proof.
  destruct a as [x|]; cbn; [|reflexivity].
  unfold truthy_string. destruct (x =? "")%string eqn:Ex; cbn; [|reflexivity].
  apply String.eqb_eq in Ex. subst. reflexivity.
Qed.

(** **** Two decimals *)

Lemma all_digits_uint (u : Decimal.uint) :
  Spec.all_digits (NilEmpty.string_of_uint u) = true.
Proof.
  induction u; cbn [NilEmpty.string_of_uint Spec.all_digits];
    try rewrite IHu; reflexivity.
Qed.

Lemma digits_all_digits (n : Z) :
  Spec.all_digits (digits n) = true /\ digits n <> "".
Proof.
  unfold digits, NilZero.string_of_uint.
  destruct (N.to_uint (Z.to_N n)) eqn:E;
    try (split; [rewrite <- E; apply all_digits_uint | cbn; discriminate]).
  split; [reflexivity | discriminate].
Qed.

Lemma all_digits_append (a b : string) :
  Spec.all_digits (a ++ b) = Spec.all_digits a && Spec.all_digits b.
Proof.
  induction a as [|x a IH]; cbn [append Spec.all_digits]; [reflexivity|].
  rewrite IH, andb_assoc. reflexivity.
Qed.

Lemma all_digits_zeros (n : nat) : Spec.all_digits (zeros n) = true.
Proof. induction n as [|n IH]; cbn [zeros Spec.all_digits]; [|rewrite IH]; reflexivity. Qed.

Lemma length_zeros (n : nat) : length (zeros n) = n.
Proof. induction n as [|n IH]; cbn; [|rewrite IH]; reflexivity. Qed.

Lemma all_digits_substring (s : string) :
  Spec.all_digits s = true ->
  forall i l, Spec.all_digits (substring i l s) = true.
Proof.
  induction s as [|c s IH]; intros Hs i l.
  - destruct i, l; reflexivity.
  - cbn [Spec.all_digits] in Hs. apply andb_true_iff in Hs.
    destruct Hs as [Hc Hs].
    destruct i as [|i]; cbn [substring].
    + destruct l as [|l]; [reflexivity|].
      cbn [Spec.all_digits]. rewrite Hc, (IH Hs 0 l). reflexivity.
    + apply IH. exact Hs.
Qed.

Lemma length_substring (s : string) :
  forall i l, i + l <= length s -> length (substring i l s) = l.
Proof.
  induction s as [|c s IH]; intros i l Hl; cbn [length] in Hl.
  - assert (i = 0) by lia. assert (l = 0) by lia. subst. reflexivity.
  - destruct i as [|i]; cbn [substring].
    + destruct l as [|l]; [reflexivity|].
      cbn [length]. rewrite (IH 0 l); [reflexivity | cbn; lia].
    + apply IH. lia.
Qed.

(** The padded digits are at least three. *)
Lemma padded (m : string) :
  Spec.all_digits m = true ->
  let p := if (length m <=? 2)%nat then zeros (3 - length m) ++ m else m in
  Spec.all_digits p = true /\ 3 <= length p.
Proof.
  intros Hm. cbv zeta. destruct (length m <=? 2)%nat eqn:E.
  - apply Nat.leb_le in E. split.
    + rewrite all_digits_append, all_digits_zeros, Hm. reflexivity.
    + rewrite Strings.length_append, length_zeros. lia.
  - apply Nat.leb_gt in E. split; [exact Hm | lia].
Qed.

Lemma fixed2_form (n : Z) :
  exists whole cents,
    fixed2 n = whole ++ "." ++ cents
    /\ whole <> "" /\ Spec.all_digits whole = true
    /\ length cents = 2 /\ Spec.all_digits cents = true.
Proof.
  unfold fixed2. cbv zeta.
  destruct (padded (digits n) (proj1 (digits_all_digits n))) as [Hd Hl].
  set (p := if (length (digits n) <=? 2)%nat then _ else _) in *.
  exists (substring 0 (length p - 2) p), (substring (length p - 2) 2 p).
  split; [reflexivity|]. split.
  - intros Hw.
    assert (Hlen : length (substring 0 (length p - 2) p) = length p - 2)
      by (apply length_substring; lia).
    rewrite Hw in Hlen. cbn in Hlen. lia.
  - split; [apply all_digits_substring; exact Hd|]. split.
    + apply length_substring. lia.
    + apply all_digits_substring. exact Hd.
Qed.

(** A final quote that is finite and below 10^21 is printed with two
    decimals. *)
Lemma toFixed2_two_decimals (N : number -> string) (q : number) :
  Spec.ordinary (Some q) -> Spec.two_decimals (toFixed2 N q).
Proof.
  destruct q as [s|s| |s m e]; cbn [Spec.ordinary toFixed2]; intros Hq;
    try contradiction.
  - destruct (fixed2_form 0) as [whole [cents [Hf H]]].
    exists "", whole, cents. rewrite Hf. split; [reflexivity|]. split; auto.
  - rewrite Hq. destruct (fixed2_form (hundredths m e)) as [whole [cents [Hf H]]].
    exists (if s then "-" else ""), whole, cents. rewrite Hf.
    split; [reflexivity|]. split; [destruct s; auto | exact H].
Qed.

(** A character that is not a digit is not among digits. *)
Lemma all_digits_has_char (c : ascii) (s : string) :
  (nat_of_ascii c <? 48)%nat || (57 <? nat_of_ascii c)%nat = true ->
  Spec.all_digits s = true -> Spec.has_char c s = false.
Proof.
  intros Hc. induction s as [|x s IH]; cbn [Spec.all_digits Spec.has_char];
    [reflexivity|].
  intros Hs. apply andb_true_iff in Hs. destruct Hs as [Hx Hs].
  rewrite (IH Hs), orb_false_r.
  apply Ascii.eqb_neq. intros ->.
  apply andb_true_iff in Hx. destruct Hx as [H1 H2].
  apply Nat.leb_le in H1, H2.
  apply orb_true_iff in Hc. destruct Hc as [Hc|Hc]; apply Nat.ltb_lt in Hc; lia.
Qed.

Lemma two_decimals_clean (s : string) : Spec.two_decimals s -> Spec.clean s.
Proof.
  intros [sign [whole [cents [-> [Hsign [_ [Hw [_ Hc]]]]]]]].
  unfold Spec.clean. rewrite !Strings.has_char_append.
  rewrite !(all_digits_has_char _ whole), !(all_digits_has_char _ cents)
    by (assumption || reflexivity).
  destruct Hsign as [-> | ->]; split; reflexivity.
Qed.

Lemma job_value_text_clean (N : number -> string) (d : Data.t) :
  Spec.ordinary (chain (Data.costsData d) finalQuote) ->
  Spec.clean (Spec.job_value_text N d).
Proof.
  unfold Spec.job_value_text.
  destruct (chain (Data.costsData d) finalQuote) as [q|]; intros Hq.
  - apply two_decimals_clean, toFixed2_two_decimals. exact Hq.
  - split; reflexivity.
Qed.

(** **** The four passes *)

(** On a record the function does its four passes and returns; on the
    empty template they leave the empty string. *)
Lemma replacePlaceholders_passes (N : number -> string) (text : string) (d : Data.t) :
  replacePlaceholders N text (Some d)
  = Ok (replace (Spec.bracketed "job_value") (Spec.job_value_text N d)
         (replace (Spec.bracketed "job_number") (Spec.job_number d)
           (replace (Spec.bracketed "customer_address") (Spec.customer_address d)
             (replace (Spec.bracketed "customer_name") (Spec.customer_name d)
                text)))).
Proof.
  unfold replacePlaceholders, Spec.customer_name, Spec.customer_address,
    Spec.job_number, Spec.job_value_text.
  rewrite !or_first_present, !or_str_empty.
  replace (Spec.first_present (Data.estimateNumber d) None)
    with (match Data.estimateNumber d with Some x => x | None => "" end)
    by (destruct (Data.estimateNumber d); reflexivity).
  replace (match option_map (toFixed2 N) (chain (Data.costsData d) finalQuote) with
           | Some x => x | None => "" end)
    with (match chain (Data.costsData d) finalQuote with
          | Some q => toFixed2 N q | None => "" end)
    by (destruct (chain (Data.costsData d) finalQuote); reflexivity).
  destruct text as [|c text]; reflexivity.
Qed.

(** A piece after the four passes is the piece with its value put in. *)
Lemma four_puts (N : number -> string) (d : Data.t) (c : Spec.chunk) :
  Spec.render_chunk
    (Spec.put "job_value" (Spec.job_value_text N d)
      (Spec.put "job_number" (Spec.job_number d)
        (Spec.put "customer_address" (Spec.customer_address d)
          (Spec.put "customer_name" (Spec.customer_name d) c))))
  = Spec.expand (Spec.token_value N d) c.
Proof.
  destruct c as [u|w]; [reflexivity|].
  unfold Spec.expand, Spec.token_value. cbn [Spec.put].
  rewrite (String.eqb_sym w "customer_name").
  destruct ("customer_name" =? w)%string; [reflexivity|]. cbn [Spec.put].
  rewrite (String.eqb_sym w "customer_address").
  destruct ("customer_address" =? w)%string; [reflexivity|]. cbn [Spec.put].
  rewrite (String.eqb_sym w "job_number").
  destruct ("job_number" =? w)%string; [reflexivity|]. cbn [Spec.put].
  rewrite (String.eqb_sym w "job_value").
  destruct ("job_value" =? w)%string; reflexivity.
Qed.

Lemma four_puts_all (N : number -> string) (d : Data.t) (cs : list Spec.chunk) :
  Spec.render
    (map (Spec.put "job_value" (Spec.job_value_text N d))
      (map (Spec.put "job_number" (Spec.job_number d))
        (map (Spec.put "customer_address" (Spec.customer_address d))
          (map (Spec.put "customer_name" (Spec.customer_name d)) cs))))
  = Spec.substituted N d cs.
Proof.
  unfold Spec.substituted.
  induction cs as [|c cs IH]; cbn [map Spec.render Spec.expand_all];
    [reflexivity|].
  rewrite IH, four_puts. reflexivity.
Qed.

(** On a template of plain pieces and with clean values the four passes
    give the template with the values put in. *)
Lemma replacePlaceholders_chunks (N : number -> string) (d : Data.t)
    (cs : list Spec.chunk) :
  Forall Spec.plain cs ->
  Spec.clean (Spec.customer_name d) -> Spec.clean (Spec.customer_address d) ->
  Spec.clean (Spec.job_number d) ->
  Spec.ordinary (chain (Data.costsData d) finalQuote) ->
  replacePlaceholders N (Spec.render cs) (Some d) = Ok (Spec.substituted N d cs).
Proof.
  intros Hcs Hname Haddress Hnumber Hquote.
  rewrite replacePlaceholders_passes.
  destruct (Strings.replace_chunks "customer_name" _ cs eq_refl Hname Hcs)
    as [E1 H1].
  rewrite E1.
  destruct (Strings.replace_chunks "customer_address" _ _ eq_refl Haddress H1)
    as [E2 H2].
  rewrite E2.
  destruct (Strings.replace_chunks "job_number" _ _ eq_refl Hnumber H2)
    as [E3 H3].
  rewrite E3.
  destruct (Strings.replace_chunks "job_value" _ _ eq_refl
              (job_value_text_clean N d Hquote) H3) as [E4 _].
  rewrite E4, four_puts_all. reflexivity.
Qed.

(** The substitution in one pass reads the four tokens by their values. *)
Lemma token_at_reads (N : number -> string) (d : Data.t) :
  Spec.reads_tokens (fun _ s => Spec.token_at N d s) (Spec.token_value N d).
Proof.
  split.
  - intros _ c s Hc. unfold Spec.token_at.
    rewrite !(Strings.prefix_bracketed_head _ c s Hc). reflexivity.
  - intros _ w rest _ Hclose. unfold Spec.token_at, Spec.token_value.
    rewrite !(fun n H => Strings.prefix_bracketed n w rest H Hclose)
      by reflexivity.
    rewrite (String.eqb_sym w "customer_name").
    destruct ("customer_name" =? w)%string eqn:E1;
      [apply String.eqb_eq in E1; subst; reflexivity|].
    rewrite (String.eqb_sym w "customer_address").
    destruct ("customer_address" =? w)%string eqn:E2;
      [apply String.eqb_eq in E2; subst; reflexivity|].
    rewrite (String.eqb_sym w "job_number").
    destruct ("job_number" =? w)%string eqn:E3;
      [apply String.eqb_eq in E3; subst; reflexivity|].
    rewrite (String.eqb_sym w "job_value").
    destruct ("job_value" =? w)%string eqn:E4;
      [apply String.eqb_eq in E4; subst; reflexivity|].
    reflexivity.
Qed.

Lemma substitute_chunks (N : number -> string) (d : Data.t) (cs : list Spec.chunk) :
  Forall Spec.plain cs ->
  Spec.substitute N d (Spec.render cs) = Spec.substituted N d cs.
Proof.
  intros Hcs. unfold Spec.substitute, Spec.substituted.
  apply (Strings.scan_chunks _ _ (token_at_reads N d) cs "" Hcs).
Qed.

(** Without a payload a template that is not empty cannot be filled in:
    reading [data.calcData] throws. Inside [executeAction] the exception
    is caught and printed as a failure of the rule. *)
Lemma no_payload_no_substitution (N : number -> string) :
  replacePlaceholders N "[customer_name]" None = Throw (TypeError_read "calcData")
  /\ replacePlaceholders N "" None = Ok ""
  /\ run Examples.willing_handlers Examples.some_globals
       (executeAction N (Examples.task_rule (Some "Call [customer_name]")) None) tt
     = ([Printed Error ("Failed to execute automation " ++ quoted "Follow up" ++ ":")
           (Some (TypeError_read "calcData"))],
        Completed (Ok tt), tt).
Proof. repeat split; reflexivity. Qed.

Lemma two_decimals_point (s : string) :
  Spec.two_decimals s -> Spec.has_char "." s = true.
Proof.
  intros [sign [whole [cents [-> _]]]].
  rewrite !Strings.has_char_append. cbn. rewrite !orb_true_r. reflexivity.
Qed.

(** What holds of substitution. On a record (a payload that is not undefined or
    null) the function never fails. When the template is a sequence of
    text without an opening bracket and of bracketed tokens, the customer
    name, address and job number that are put in have no dollar sign and
    open no bracket, and the final quote is absent or finite and below
    10^21, the result is the template with each of the four tokens
    replaced by its value and every other piece, the other bracketed
    tokens included, left as it is; this is also what replacing all
    occurrences in one pass gives. The values are: name and address from
    the nested customer record, else from the top level; the job number
    from the number field; the final quote with two decimals; the empty
    string for what is absent. The two examples of the specification
    hold. *)
Theorem placeholders_substituted :
  (forall (N : number -> string) (text : string) (d : Data.t),
      exists s, replacePlaceholders N text (Some d) = Ok s)
  /\ (forall (N : number -> string) (d : Data.t) (cs : list Spec.chunk),
      Forall Spec.plain cs ->
      Spec.clean (Spec.customer_name d) ->
      Spec.clean (Spec.customer_address d) ->
      Spec.clean (Spec.job_number d) ->
      Spec.ordinary (chain (Data.costsData d) finalQuote) ->
      replacePlaceholders N (Spec.render cs) (Some d)
      = Ok (Spec.substituted N d cs)
      /\ Spec.substitute N d (Spec.render cs) = Spec.substituted N d cs)
  /\ (forall (N : number -> string) (d : Data.t) (q : number),
      chain (Data.costsData d) finalQuote = Some q ->
      Spec.ordinary (Some q) ->
      Spec.two_decimals (Spec.job_value_text N d))
  /\ (forall N : number -> string,
      replacePlaceholders N "[customer_name] - [job_number]"
        (Some (Examples.job_of "Acme" (Some "1042"))) = Ok "Acme - 1042"
      /\ replacePlaceholders N "[customer_name] - [job_number]"
           (Some (Examples.job_of "Acme" None)) = Ok "Acme - ").
Proof.
  split; [|split; [|split]].
  - intros N text d. rewrite replacePlaceholders_passes. eexists. reflexivity.
  - intros N d cs Hcs Hname Haddress Hnumber Hquote. split.
    + apply replacePlaceholders_chunks; assumption.
    + apply substitute_chunks. exact Hcs.
  - intros N d q Hq Hord. unfold Spec.job_value_text. rewrite Hq.
    apply toFixed2_two_decimals. exact Hord.
  - intros N. split; reflexivity.
Qed.

Lemma placeholders_substituted_witness :
  replacePlaceholders Examples.no_toString
    (Spec.render [Spec.Token "customer_name"; Spec.Text ": ";
                  Spec.Token "job_value"; Spec.Text " ";
                  Spec.Token "company_name"])
    (Some {| Data.calcData := None;
             Data.costsData := Some {| finalQuote := Some num_499_99 |};
             Data.estimateNumber := None; Data.status := None;
             Data.name := Some "Acme"; Data.address := None;
             Data.email := None;
             Data.estimateNumber_undefined := false |})
  = Ok "Acme: 499.99 [company_name]".
Proof.
  apply (proj1 (proj2 placeholders_substituted) Examples.no_toString).
  - repeat constructor.
  - split; reflexivity.
  - split; reflexivity.
  - split; reflexivity.
  - reflexivity.
Defined.

(** C4, where the code fails it. The value of a token is handed to
    [replace] as its replacement string, in which a dollar sign starts a
    pattern: of two dollar signs in a customer name one is left, and a
    name that is the pattern for the matched text is put in as the token
    itself. Replacing every occurrence of the token by the value, as the
    claim says, gives the value as it is. *)
Theorem dollar_sign_is_read_as_pattern :
  forall N : number -> string,
    (replacePlaceholders N "Dear [customer_name]"
       (Some (Examples.job_of "A$$B" None)) = Ok "Dear A$B"
     /\ Spec.substitute N (Examples.job_of "A$$B" None) "Dear [customer_name]"
        = "Dear A$$B")
    /\ (replacePlaceholders N "[customer_name]"
          (Some (Examples.job_of "$&" None)) = Ok "[customer_name]"
        /\ Spec.substitute N (Examples.job_of "$&" None) "[customer_name]"
           = "$&").
Proof. intros N. repeat split; reflexivity. Qed.

(** Further inputs on which the result is not the template with every
    occurrence of the tokens replaced by its value, all from the passes
    being made one after the other on the result of the last, and from
    [toFixed]. A value that holds a token is substituted again by a later
    pass. A token that a pass completes is substituted by a later pass. A
    final quote that is NaN is printed without decimals. *)
Lemma later_passes_substitute_again :
  (replacePlaceholders Examples.no_toString "[customer_name]"
     (Some (Examples.job_of "[job_number]" (Some "7"))) = Ok "7"
   /\ Spec.substitute Examples.no_toString
        (Examples.job_of "[job_number]" (Some "7")) "[customer_name]"
      = "[job_number]")
  /\ (replacePlaceholders Examples.no_toString "[job_[customer_name]number]"
        (Some (Examples.job_of "" (Some "7"))) = Ok "7"
      /\ Spec.substitute Examples.no_toString (Examples.job_of "" (Some "7"))
           "[job_[customer_name]number]" = "[job_number]")
  /\ (replacePlaceholders Examples.no_toString "[job_value]"
        (Some (Examples.job_quoted S754_nan)) = Ok "NaN"
      /\ ~ Spec.two_decimals "NaN").
Proof.
  repeat split; try reflexivity.
  intros H. apply two_decimals_point in H. discriminate H.
Qed.

End Placeholders.

(** *** The dispatch pass *)

Module Pass.
Import JS Types Effects Engine.
Local Open Scope list_scope.

(** **** Timers *)

Lemma all_from_holds (f : Z -> bool) :
  forall count z,
    Spec.all_from f z count = true ->
    forall n, (z <= n < z + Z.of_nat count)%Z -> f n = true.
Proof.
  induction count as [|k IH]; intros z Hall n Hn.
  - lia.
  - cbn [Spec.all_from] in Hall. apply andb_true_iff in Hall.
    destruct Hall as [Hz Hrest].
    destruct (Z.eq_dec n z) as [->|Hne]; [exact Hz|].
    apply (IH (z + 1)%Z Hrest). lia.
Qed.

(** Every delay from 1 to 35791 whole minutes is kept by the timer. *)
Lemma whole_minutes_kept (n : Z) :
  (1 <= n <= 35791)%Z -> Spec.delay_kept n = true.
Proof.
  intros Hn.
  apply (all_from_holds Spec.delay_kept (Z.to_nat 35791) 1%Z); [|lia].
  vm_compute. reflexivity.
Qed.

(** No timer waits 2^31 milliseconds, which are just under 35792 minutes,
    or more. *)
Lemma timeout_ms_bound (ms : number) : (0 <= timeout_ms ms < 2 ^ 31)%Z.
Proof.
  unfold timeout_ms, ToInt32.
  pose proof (Z.mod_pos_bound (truncate ms) (2 ^ 32) eq_refl) as Hmod.
  destruct (2 ^ 31 <=? truncate ms mod 2 ^ 32)%Z eqn:E.
  - apply Z.leb_le in E. lia.
  - apply Z.leb_gt in E. lia.
Qed.

Section Pass.

Variable N : number -> string.
Variable H : Type.
Variable handlers : ActionHandlers H.
Variable globals : Globals H.

Local Abbreviation dispatch := (dispatch N handlers globals).
Local Abbreviation call_executeAction := (call_executeAction N handlers globals).
Local Abbreviation processAutomations := (processAutomations N handlers globals).
Local Abbreviation dispatch_all := (Spec.dispatch_all N handlers globals).

Lemma call_executeAction_dispatched (a : Automation) (data : any) (w : world H) :
  exists s,
    dispatched (call_executeAction a data w)
    = dispatched w ++ [{| rule := a; payload := data; how := Started s |}]
    /\ Spec.contained N {| rule := a; payload := data; how := Started s |}.
Proof.
  unfold Engine.call_executeAction.
  pose proof (Actions.no_throw_run handlers globals _
                (Actions.executeAction_no_throw N a data) (outside w)) as Hq.
  destruct (run handlers globals (executeAction N a data) (outside w))
    as [[evs s] h].
  exists s. split; [reflexivity|].
  unfold Spec.contained. cbn. destruct s as [r|k].
  - destruct Hq as [[] ->]. reflexivity.
  - exact Hq.
Qed.

(** Every dispatch adds one entry, for its rule and the payload, and the
    entry is contained. *)
Lemma dispatch_dispatched (a : Automation) (data : any) (w : world H) :
  exists m,
    dispatched (dispatch a data w)
    = dispatched w ++ [{| rule := a; payload := data; how := m |}]
    /\ Spec.contained N {| rule := a; payload := data; how := m |}.
Proof.
  unfold Engine.dispatch.
  set (w1 := print Log _ w).
  assert (Hw1 : dispatched w1 = dispatched w) by reflexivity.
  destruct (delay_minutes (action_config a)) as [delay|].
  - destruct (truthy_number delay && gt delay (num 0)).
    + eexists. split; [reflexivity|].
      unfold Spec.contained. cbn. apply Actions.executeAction_no_throw.
    + destruct (call_executeAction_dispatched a data w1) as [s [Hs Hc]].
      exists (Started s). rewrite Hs, Hw1. auto.
  - destruct (call_executeAction_dispatched a data w1) as [s [Hs Hc]].
    exists (Started s). rewrite Hs, Hw1. auto.
Qed.

Lemma dispatch_all_dispatched (data : any) (l : list Automation) :
  forall w, exists new,
    dispatched (dispatch_all data l w) = dispatched w ++ new
    /\ map rule new = l
    /\ Forall (fun d => payload d = data) new
    /\ Forall (Spec.contained N) new.
Proof.
  induction l as [|a l IH]; intros w; cbn.
  - exists []. rewrite app_nil_r. repeat split; constructor.
  - destruct (dispatch_dispatched a data w) as [m [Hm Hc]].
    destruct (IH (dispatch a data w)) as [new [Hnew [Hrules [Hdata Hcont]]]].
    exists ({| rule := a; payload := data; how := m |} :: new).
    unfold Spec.dispatch_all in Hnew. rewrite Hnew, Hm, <- app_assoc. cbn.
    rewrite Hrules. repeat split; constructor; auto.
Qed.

Lemma filter_both {A} (f g : A -> bool) (l : list A) :
  filter (fun a => f a && g a) l = filter g (filter f l).
Proof.
  induction l as [|a l IH]; cbn; [reflexivity|].
  destruct (f a); cbn; [|exact IH].
  destruct (g a); [rewrite IH|]; auto.
Qed.

Lemma existsb_false_filter {A} (f : A -> bool) (l : list A) :
  existsb f l = false -> filter f l = [].
Proof.
  induction l as [|a l IH]; cbn; [reflexivity|].
  destruct (f a); cbn; [discriminate | exact IH].
Qed.

(** When the check of every rule of a list ends, the loop runs those
    whose check says so, in their order, and ends normally. *)
Lemma for_of_checked (kind : TriggerType) (data : any)
    (verdict : Automation -> bool) (l : list Automation) :
  Forall (fun a => shouldRun kind a data = Ok (verdict a)) l ->
  forall w,
    for_of l
      (fun automation w =>
         match shouldRun kind automation data with
         | Throw e => (Throw e, w)
         | Ok true => (Ok tt, dispatch automation data w)
         | Ok false => (Ok tt, w)
         end) w
    = (Ok tt, dispatch_all data (filter verdict l) w).
Proof.
  unfold Spec.dispatch_all.
  induction 1 as [|a l Ha Hl IH]; intros w; cbn [for_of filter];
    [reflexivity|].
  rewrite Ha. destruct (verdict a); cbn [fold_left]; apply IH.
Qed.

(** On a rule set on which the conditions of the event can be checked,
    the check of every enabled rule of the kind ends, with the condition
    as its verdict. *)
Lemma checks_end (kind : TriggerType) (data : any) (R : list Automation) :
  Spec.readable kind data R = true ->
  Forall (fun a => shouldRun kind a data
                   = Ok (Spec.condition_passes kind (trigger_config a) data))
         (filter (fun a => is_enabled a
                           && TriggerType_eqb (trigger_type a) kind) R).
Proof.
  intros Hr. apply Forall_forall. intros a Ha.
  destruct data as [d|]; [apply Matcher.shouldRun_condition|].
  destruct kind; try reflexivity; cbn [Spec.readable] in Hr.
  - apply negb_true_iff, existsb_false_filter in Hr.
    rewrite Hr in Ha. destruct Ha.
  - rewrite forallb_forall in Hr. specialize (Hr a Ha).
    cbn [Spec.condition_passes]. rewrite Hr.
    apply andb_true_iff in Hr. destruct Hr as [Hmin Hmax].
    apply Matcher.shouldRun_job_created_unset; assumption.
Qed.

(** On such a rule set the loop dispatches the selected rules, in their
    order, and ends normally. *)
Lemma processAutomations_selected (kind : TriggerType) (data : any)
    (R : list Automation) :
  Spec.readable kind data R = true ->
  forall w,
    processAutomations kind data R w
    = (Ok tt, dispatch_all data (Spec.selected kind data R) w).
Proof.
  intros Hr w. unfold Engine.processAutomations, Spec.selected.
  rewrite (filter_both
             (fun a => is_enabled a && TriggerType_eqb (trigger_type a) kind)
             (fun a => Spec.condition_passes kind (trigger_config a) data)).
  apply for_of_checked, checks_end. exact Hr.
Qed.

(** C1, with what the checks read taken into account. On every rule set
    and every event on which the conditions can be checked (the event has
    a payload, or is not of a job kind, or no enabled rule of its kind
    reads the payload) the engine runs exactly the rules that are
    enabled, of the kind of the event and whose condition passes on the
    payload, a bound or final quote that is NaN counting as absent, in
    the order of the rule set: it ends normally, having dispatched each
    of them in turn with the payload of the event. *)
Theorem matching_rules_run_in_order :
  forall (kind : TriggerType) (data : any) (R : list Automation) (w : world H),
    Spec.readable kind data R = true ->
    exists new,
      processAutomations kind data R w
      = (Ok tt, dispatch_all data (Spec.selected kind data R) w)
      /\ dispatched (dispatch_all data (Spec.selected kind data R) w)
         = dispatched w ++ new
      /\ map rule new = Spec.selected kind data R
      /\ Forall (fun d => payload d = data) new.
Proof.
  intros kind data R w Hr.
  destruct (dispatch_all_dispatched data (Spec.selected kind data R) w)
    as [new [Hnew [Hrules [Hdata _]]]].
  exists new. split; [|auto].
  apply processAutomations_selected; assumption.
Qed.

(** What holds of containment: on every rule set on which the conditions of the
    event can be checked, whatever the handlers do (throw, or return
    promises that are rejected), the pass ends normally, it is the
    dispatch of every selected rule in turn, and the promise of none of
    the dispatched calls is ever rejected. *)
Lemma handler_failures_are_contained (kind : TriggerType) (data : any)
    (R : list Automation) (w : world H) :
  Spec.readable kind data R = true ->
  exists new,
    processAutomations kind data R w
    = (Ok tt, dispatch_all data (Spec.selected kind data R) w)
    /\ dispatched (dispatch_all data (Spec.selected kind data R) w)
       = dispatched w ++ new
    /\ map rule new = Spec.selected kind data R
    /\ Forall (Spec.contained N) new.
Proof.
  intros Hr.
  destruct (dispatch_all_dispatched data (Spec.selected kind data R) w)
    as [new [Hnew [Hrules [_ Hcont]]]].
  exists new. split; [|auto].
  apply processAutomations_selected; assumption.
Qed.

(** C6, where the code fails it. The condition checks of the two job
    kinds read the payload outside of any [try]: on an event of kind
    [job_status_updated] without a payload (undefined or null) the first
    enabled rule of the kind makes the engine throw a TypeError to its
    caller, and so does, on an event of kind [job_created], the first
    enabled rule of the kind with a bound; the rules after it are not
    run, whatever they are. *)
Theorem missing_payload_is_not_contained :
  forall (R : list Automation) (w : world H),
    processAutomations job_status_updated None
      (Examples.rule_to_sold None :: R) w
    = (Throw (TypeError_read "status"), w)
    /\ processAutomations job_created None (Examples.rule_min_500 :: R) w
       = (Throw (TypeError_read "costsData"), w).
Proof. intros R w. split; reflexivity. Qed.

(** **** Delays *)

(** [executeAction] does not read the delay. *)
Lemma executeAction_delay (m : option number) (a : Automation) (data : any) :
  executeAction N (with_delay_minutes m a) data = executeAction N a data.
Proof. reflexivity. Qed.

(** Without a delay, or with a delay of zero, the action is executed
    within the pass, right after the line that announces it. *)
Lemma dispatch_at_once (a : Automation) (data : any) (w : world H) :
  Spec.absent_or_zero (delay_minutes (action_config a)) = true ->
  dispatch a data w
  = call_executeAction a data (print Log ("Running automation: " ++ name a)%string w).
Proof.
  unfold Engine.dispatch.
  destruct (delay_minutes (action_config a)) as [[s|s| |s m e]|]; cbn;
    intros Hz; try discriminate; reflexivity.
Qed.

(** A delay of zero and no delay at all give the same pass: the same
    trace, the same state outside, the same calls started. *)
Lemma zero_delay_like_none (a : Automation) (data : any) (w : world H) :
  let w0 := dispatch (with_delay_minutes (Some (num 0)) a) data w in
  let w1 := dispatch (with_delay_minutes None a) data w in
  trace w0 = trace w1 /\ outside w0 = outside w1
  /\ map how (dispatched w0) = map how (dispatched w1)
  /\ map payload (dispatched w0) = map payload (dispatched w1).
Proof.
  cbv zeta. rewrite !dispatch_at_once by reflexivity.
  unfold Engine.call_executeAction. rewrite !executeAction_delay. cbn.
  destruct (run handlers globals (executeAction N a data) (outside w))
    as [[evs s] h]. cbn.
  rewrite !map_app. repeat split; reflexivity.
Qed.

(** With a positive delay the pass only announces the rule and sets a
    timer: nothing is called, and the pass goes on to the next rule. *)
Lemma dispatch_later (a : Automation) (data : any) (w : world H) (delay : number) :
  delay_minutes (action_config a) = Some delay ->
  truthy_number delay = true -> gt delay (num 0) = true ->
  dispatch a data w
  = setTimeout a data (mul (mul delay (num 60)) (num 1000))
      (print Log ("Running automation: " ++ name a)%string w).
Proof.
  intros Hd Ht Hg. unfold Engine.dispatch. rewrite Hd, Ht, Hg. reflexivity.
Qed.

(** A delay of 1 to 35791 whole minutes is kept: the rule is announced,
    nothing is called in the pass, and the timer that is set waits the
    [n * 60] seconds of the delay. *)
Lemma dispatch_later_whole_minutes (a : Automation) (data : any) (w : world H)
    (n : Z) :
  delay_minutes (action_config a) = Some (num n) ->
  (1 <= n <= 35791)%Z ->
  exists ms,
    dispatch a data w
    = setTimeout a data ms (print Log ("Running automation: " ++ name a)%string w)
    /\ timeout_ms ms = (n * 60 * 1000)%Z.
Proof.
  intros Hd Hn. pose proof (whole_minutes_kept n Hn) as Hk.
  unfold Spec.delay_kept in Hk.
  apply andb_true_iff in Hk. destruct Hk as [Hk Hms].
  apply andb_true_iff in Hk. destruct Hk as [Ht Hg].
  exists (mul (mul (num n) (num 60)) (num 1000)). split.
  - apply dispatch_later; assumption.
  - apply Z.eqb_eq in Hms. lia.
Qed.

(** C5, on a delay of 30 days. The rule delayed by 43200 minutes is
    announced and given to [setTimeout] with 43200 * 60 * 1000 =
    2592000000 milliseconds, and nothing else is done in the pass. That is
    more than a timer holds: the delay that the timer takes is 0, so the
    action runs as soon as the pass is over, not after 30 days. *)
Theorem thirty_day_delay_fires_at_once :
  forall (data : any) (w : world H),
    dispatch (Examples.delayed_rule (num 43200)) data w
    = setTimeout (Examples.delayed_rule (num 43200)) data (num 2592000000)
        (print Log "Running automation: Bare" w)
    /\ truncate (num 2592000000) = (43200 * 60 * 1000)%Z
    /\ timeout_ms (num 2592000000) = 0%Z.
Proof.
  intros data w. split; [|split]; [| reflexivity | vm_compute; reflexivity].
  rewrite (dispatch_later _ data w (num 43200)); [| reflexivity ..].
  reflexivity.
Qed.

End Pass.

(** Delays that a timer holds are kept: 5 minutes are 300000
    milliseconds, and 35791 minutes, the longest such delay in whole
    minutes, are 2147460000. One minute more is taken as no delay. *)
Lemma timer_delays :
  timeout_ms (mul (mul (num 5) (num 60)) (num 1000)) = 300000%Z
  /\ timeout_ms (mul (mul (num 35791) (num 60)) (num 1000)) = 2147460000%Z
  /\ timeout_ms (mul (mul (num 35792) (num 60)) (num 1000)) = 0%Z.
Proof. repeat split; vm_compute; reflexivity. Qed.

Lemma matching_rules_run_in_order_witness :
  exists new,
    processAutomations Examples.no_toString Examples.willing_handlers
      Examples.some_globals job_created
      (Some (Examples.job_quoted (num 500)))
      [Examples.bare_rule webhook; Examples.rule_min_500;
       Examples.rule_to_sold None; Examples.rule_min_500]
      Examples.empty_world
    = (Ok tt,
       Spec.dispatch_all Examples.no_toString Examples.willing_handlers
         Examples.some_globals (Some (Examples.job_quoted (num 500)))
         (Spec.selected job_created (Some (Examples.job_quoted (num 500)))
            [Examples.bare_rule webhook; Examples.rule_min_500;
             Examples.rule_to_sold None; Examples.rule_min_500])
         Examples.empty_world)
    /\ dispatched
         (Spec.dispatch_all Examples.no_toString Examples.willing_handlers
            Examples.some_globals (Some (Examples.job_quoted (num 500)))
            (Spec.selected job_created (Some (Examples.job_quoted (num 500)))
               [Examples.bare_rule webhook; Examples.rule_min_500;
                Examples.rule_to_sold None; Examples.rule_min_500])
            Examples.empty_world)
       = dispatched Examples.empty_world ++ new
    /\ map rule new
       = Spec.selected job_created (Some (Examples.job_quoted (num 500)))
           [Examples.bare_rule webhook; Examples.rule_min_500;
            Examples.rule_to_sold None; Examples.rule_min_500]
    /\ Forall (fun d => payload d = Some (Examples.job_quoted (num 500))) new.
Proof.
  apply matching_rules_run_in_order. reflexivity.
Defined.

(** C1, as it is stated, fails on the code. For a job whose final quote
    is NaN the engine runs a rule with an upper bound of 500, and it runs
    a rule whose lower bound is NaN for a job of value 500; by the
    condition as stated, with the final quote as the job value and every
    bound but an absent or zero one compared, neither rule matches its
    event. And on a job event without a payload the engine throws at a
    rule with a lower bound of 500 and does not run the rule without
    bounds that comes after it, which matches by the condition as
    stated. *)
Lemma matching_rules_not_as_stated :
  (Spec.matching job_created (Some (Examples.job_quoted S754_nan))
     [Examples.bounded_rule None (Some (num 500))] = []
   /\ map rule
        (dispatched
           (snd (processAutomations Examples.no_toString
                   Examples.willing_handlers Examples.some_globals job_created
                   (Some (Examples.job_quoted S754_nan))
                   [Examples.bounded_rule None (Some (num 500))]
                   Examples.empty_world)))
      = [Examples.bounded_rule None (Some (num 500))])
  /\ (Spec.matching job_created (Some (Examples.job_quoted (num 500)))
        [Examples.bounded_rule (Some S754_nan) None] = []
      /\ map rule
           (dispatched
              (snd (processAutomations Examples.no_toString
                      Examples.willing_handlers Examples.some_globals
                      job_created (Some (Examples.job_quoted (num 500)))
                      [Examples.bounded_rule (Some S754_nan) None]
                      Examples.empty_world)))
         = [Examples.bounded_rule (Some S754_nan) None])
  /\ (Spec.matching job_created None
        [Examples.rule_min_500; Examples.bounded_rule None None]
      = [Examples.bounded_rule None None]
      /\ processAutomations Examples.no_toString Examples.willing_handlers
           Examples.some_globals job_created None
           [Examples.rule_min_500; Examples.bounded_rule None None]
           Examples.empty_world
         = (Throw (TypeError_read "costsData"), Examples.empty_world)).
Proof. repeat split; reflexivity. Qed.

(** Handlers that throw are contained, on a concrete pass over two
    rules. *)
Lemma handler_failures_are_contained_on_two_rules :
  exists new,
    processAutomations Examples.no_toString Examples.failing_handlers
      Examples.some_globals new_customer
      (Some (Examples.job_of "Acme" (Some "1042")))
      [Examples.bare_rule add_to_schedule;
       Examples.task_rule (Some "Call [customer_name]")]
      Examples.empty_world
    = (Ok tt,
       Spec.dispatch_all Examples.no_toString Examples.failing_handlers
         Examples.some_globals (Some (Examples.job_of "Acme" (Some "1042")))
         [Examples.bare_rule add_to_schedule;
          Examples.task_rule (Some "Call [customer_name]")]
         Examples.empty_world)
    /\ map rule new
       = [Examples.bare_rule add_to_schedule;
          Examples.task_rule (Some "Call [customer_name]")]
    /\ Forall (Spec.contained Examples.no_toString) new.
Proof.
  destruct (handler_failures_are_contained Examples.no_toString unit
              Examples.failing_handlers Examples.some_globals new_customer
              (Some (Examples.job_of "Acme" (Some "1042")))
              [Examples.bare_rule add_to_schedule;
               Examples.task_rule (Some "Call [customer_name]")]
              Examples.empty_world eq_refl)
    as [new [Hp [_ [Hr Hc]]]].
  exists new. auto.
Qed.

(** The first rule's handler throws; the second rule is executed all the
    same, and reports its success once its promise is fulfilled. *)
Lemma second_rule_runs_after_failure :
  exists k,
    processAutomations Examples.no_toString Examples.schedule_fails
      Examples.some_globals new_customer
      (Some (Examples.job_of "Acme" (Some "1042")))
      [Examples.bare_rule add_to_schedule;
       Examples.task_rule (Some "Call [customer_name]")]
      Examples.empty_world
    = (Ok tt,
       {| outside := tt;
          trace :=
            [Printed Log "Running automation: Bare" None;
             Called (AddToSchedule
                       {| Job.name := "Acme - 1042"; Job.start := "2024-05-01";
                          Job.end_ := "2024-05-01"; Job.color := "#3498DB" |});
             Printed Error ("Failed to execute automation " ++ quoted "Bare" ++ ":")
               (Some (Raised "addToSchedule failed"));
             Printed Log "Running automation: Follow up" None;
             Called (CreateTask {| Task.title := "Call Acme";
                                   Task.description := "" |})];
          dispatched :=
            [{| rule := Examples.bare_rule add_to_schedule;
                payload := Some (Examples.job_of "Acme" (Some "1042"));
                how := Started (Completed (Ok tt)) |};
             {| rule := Examples.task_rule (Some "Call [customer_name]");
                payload := Some (Examples.job_of "Acme" (Some "1042"));
                how := Started (Suspended k) |}] |})
    /\ run Examples.schedule_fails Examples.some_globals (k Fulfilled) tt
       = ([Printed Log ("Task created: " ++ quoted "Call Acme") None],
          Completed (Ok tt), tt).
Proof. eexists. split; reflexivity. Qed.

End Pass.

(** *** More on executeAction *)

Module MoreActions.
Import JS Types Effects Engine.

Lemma quiet_no_calls {A} (p : prog A) (c : call) : More.quiet p -> ~ calls c p.
Proof.
  induction 1 as [a|e|l msg arg k Hk IH|k Hk IH|k Hk IH]; intros Hc;
    inversion Hc; subst; eapply IH; eassumption.
Qed.

Lemma quiet_tidy {A} (p : prog A) : More.quiet p -> More.tidy p.
Proof.
  induction 1; constructor; auto.
Qed.

Lemma quiet_try_catch {A} (p : prog A) (handler : error -> prog A) :
  More.quiet p -> (forall e, More.quiet (handler e)) ->
  More.quiet (try_catch p handler).
Proof.
  intros Hp Hh. induction Hp; cbn; try constructor; auto.
Qed.

Lemma tidy_try_catch {A} (p : prog A) (handler : error -> prog A) :
  More.tidy p -> (forall e, More.quiet (handler e)) ->
  More.tidy (try_catch p handler).
Proof.
  intros Hp Hh. induction Hp; cbn; try constructor; auto using quiet_try_catch.
  apply quiet_tidy. auto.
Qed.

(** The events of a run of a quiet program hold no call, before or after
    an [await]. *)
Lemma run_quiet {H A} (handlers : ActionHandlers H) (globals : Globals H)
    (p : prog A) :
  More.quiet p ->
  forall h,
    More.calls_in (fst (fst (run handlers globals p h))) = 0
    /\ match snd (fst (run handlers globals p h)) with
       | Suspended k => forall s, More.quiet (k s)
       | Completed _ => True
       end.
Proof.
  induction 1 as [a|e|l msg arg k Hk IH|k Hk IH|k Hk IH]; intros h; cbn.
  - auto.
  - auto.
  - specialize (IH h). destruct (run handlers globals k h) as [[evs s] h'].
    exact IH.
  - auto.
  - destruct (today globals h) as [d h1]. apply IH.
Qed.

Lemma run_tidy {H A} (handlers : ActionHandlers H) (globals : Globals H)
    (p : prog A) :
  More.tidy p ->
  forall h,
    More.calls_in (fst (fst (run handlers globals p h))) <= 1
    /\ match snd (fst (run handlers globals p h)) with
       | Suspended k => forall s, More.quiet (k s)
       | Completed _ => True
       end.
Proof.
  induction 1 as [a|e|l msg arg k Hk IH|c k Hk|k Hk|k Hk IH]; intros h; cbn.
  - auto.
  - auto.
  - specialize (IH h). destruct (run handlers globals k h) as [[evs s] h'].
    exact IH.
  - destruct (respond handlers globals c h) as [r h1].
    pose proof (run_quiet handlers globals (k r) (Hk r) h1) as Hq.
    destruct (run handlers globals (k r) h1) as [[evs s] h2].
    cbn in *. destruct Hq as [Hz Hs]. unfold More.calls_in in *. cbn.
    rewrite Hz. auto.
  - auto.
  - destruct (today globals h) as [d h1]. apply IH.
Qed.

(** Takes apart a hypothesis that a given program makes a call. *)
Ltac find_call :=
  repeat match goal with
         | H : calls _ (try_catch _ _) |- _ =>
           apply Actions.calls_try_catch in H; destruct H as [H|[? H]]
         | H : calls _ (pbind _ _) |- _ =>
           apply Actions.calls_pbind in H; destruct H as [H|[? H]]
         | H : calls _ (lift ?r) |- _ => destruct r; cbn [lift] in H
         | H : calls _ (Ret _) |- _ => inversion H
         | H : calls _ (Fail _) |- _ => inversion H
         | H : calls _ await |- _ => unfold await in H
         | H : calls _ fmtInput_new_Date |- _ => unfold fmtInput_new_Date in H
         | H : calls _ (invoke _) |- _ => unfold invoke in H
         | H : calls _ (console_log _) |- _ => unfold console_log in H
         | H : calls _ (console_warn _) |- _ => unfold console_warn in H
         | H : calls _ (console_error _ _) |- _ => unfold console_error in H
         | H : calls _ (Print _ _ _ _) |- _ => inversion H; subst; clear H
         | H : calls _ (Await _) |- _ => inversion H; subst; clear H
         | H : calls _ (Today _) |- _ => inversion H; subst; clear H
         | H : calls _ (Call _ _) |- _ => inversion H; subst; clear H
         | H : calls _ (match ?x with _ => _ end) |- _ => destruct x
         | H : calls _ (if ?b then _ else _) |- _ => destruct b
         end.

Lemma calls_of_kind (N : number -> string) (a : Automation) (data : any)
    (c : call) :
  calls c (executeAction N a data) -> More.handler_of c = action_type a.
Proof.
  unfold executeAction. intros Hc.
  destruct (action_type a); find_call; reflexivity.
Qed.

(** Shows that a given program has the shape [quiet] or [tidy]. *)
Ltac shape :=
  repeat first
    [ progress cbn [pbind try_catch lift invoke await console_log console_warn
                    console_error fmtInput_new_Date]
    | progress intros
    | match goal with
      | |- context [lift ?r] => destruct r
      | |- context [match ?x with Threw _ => _ | Returned => _ end] => destruct x
      | |- context [match ?x with Fulfilled => _ | Rejected _ => _ end] =>
        destruct x
      | |- More.tidy (match ?x with _ => _ end) => destruct x
      | |- More.tidy (if ?b then _ else _) => destruct b
      end
    | constructor ].

Lemma executeAction_tidy (N : number -> string) (a : Automation) (data : any) :
  More.tidy (executeAction N a data).
Proof.
  unfold executeAction. apply tidy_try_catch; [|shape].
  destruct (action_type a); shape.
Qed.

Lemma truthy_string_true (s : string) : s <> "" -> truthy_string s = true.
Proof.
  intros Hs. unfold truthy_string. destruct (s =? "")%string eqn:E; [|reflexivity].
  apply String.eqb_eq in E. contradiction.
Qed.

Lemma truthy_string_nonempty (s : string) : truthy_string s = true -> s <> "".
Proof. intros Hs ->. discriminate Hs. Qed.

(** Without a payload no template but the empty one can be filled in. *)
Lemma replacePlaceholders_no_payload (N : number -> string) (text : string) :
  truthy_string text = true ->
  replacePlaceholders N text None = Throw (TypeError_read "calcData").
Proof. intros Ht. unfold replacePlaceholders. rewrite Ht. reflexivity. Qed.

(** X1, one call, of the rule's kind. Whatever the rule, the payload and
    the behaviour of the handlers, a call that [executeAction] makes is
    the call of the handler of the rule's action kind ([fetch] for a
    webhook); a run makes at most one call, and none once it has been
    suspended at an [await]. *)
Theorem one_call_of_the_kind :
  forall (N : number -> string) (a : Automation) (data : any),
    (forall c, calls c (executeAction N a data) ->
               More.handler_of c = action_type a)
    /\ (forall H (handlers : ActionHandlers H) (globals : Globals H) (h : H),
          More.calls_in (fst (fst (run handlers globals (executeAction N a data) h)))
          <= 1
          /\ match snd (fst (run handlers globals (executeAction N a data) h)) with
             | Suspended k =>
               forall s h',
                 More.calls_in (fst (fst (run handlers globals (k s) h'))) = 0
             | Completed _ => True
             end).
Proof.
  intros N a data. split.
  - intros c. apply calls_of_kind.
  - intros H handlers globals h.
    destruct (run_tidy handlers globals _ (executeAction_tidy N a data) h)
      as [Hone Hrest].
    split; [exact Hone|].
    destruct (snd (fst (run handlers globals (executeAction N a data) h)))
      as [r|k]; [exact I|].
    intros s h'. apply (run_quiet handlers globals (k s) (Hrest s) h').
Qed.

Lemma one_call_of_the_kind_witness :
  More.handler_of
    (Fetch "https://example.org/hook"
       {| body_automation := "Hook"; body_trigger := scheduled_time;
          body_data := Some (Examples.job_of "Acme" None) |})
  = action_type MoreExamples.hook_rule.
Proof.
  apply (proj1 (one_call_of_the_kind Examples.no_toString
                  MoreExamples.hook_rule
                  (Some (Examples.job_of "Acme" None)))).
  cbn. apply calls_here.
Defined.

(** Follows a given program to the calls it makes. *)
Ltac trace_call :=
  repeat match goal with
         | H : calls _ _ |- _ =>
           progress cbn [lift pbind try_catch invoke await console_log
                         console_warn console_error fmtInput_new_Date] in H
         | H : calls _ (Ret _) |- _ => inversion H
         | H : calls _ (Fail _) |- _ => inversion H
         | H : calls _ (console_log _) |- _ => unfold console_log in H
         | H : calls _ (console_warn _) |- _ => unfold console_warn in H
         | H : calls _ (console_error _ _) |- _ => unfold console_error in H
         | H : calls _ (Print _ _ _ _) |- _ => inversion H; subst; clear H
         | H : calls _ (Await _) |- _ => inversion H; subst; clear H
         | H : calls _ (Today _) |- _ => inversion H; subst; clear H
         | H : calls _ (Call _ _) |- _ => inversion H; subst; clear H
         | H : calls _ ?p |- _ =>
           match p with
           | context [match ?x with Threw _ => _ | Returned => _ end] => destruct x
           | context [match ?x with Fulfilled => _ | Rejected _ => _ end] =>
             destruct x
           end
         end.

(** X2, without a payload. On a payload that is undefined or null only a
    webhook rule makes a call, the request with the payload as it is; a
    rule of any other kind calls no handler: it does nothing, or prints
    a skip or a failure. *)
Theorem no_payload_only_fetch :
  forall (N : number -> string) (a : Automation) (c : call),
    calls c (executeAction N a None) ->
    action_type a = webhook
    /\ exists u,
         url (action_config a) = Some u
         /\ c = Fetch u {| body_automation := name a;
                           body_trigger := trigger_type a;
                           body_data := None |}.
Proof.
  intros N a c. unfold executeAction. intros Hc.
  destruct (action_type a) eqn:Hkind; try solve [trace_call].
  - split; [reflexivity|].
    destruct (url (action_config a)) as [u|]; [|trace_call].
    exists u. split; [reflexivity|].
    destruct (truthy_string u); trace_call. reflexivity.
  - destruct (task_title (action_config a)) as [t|]; [|trace_call].
    destruct (truthy_string t) eqn:Ht; [|trace_call].
    rewrite (replacePlaceholders_no_payload N t Ht) in Hc. trace_call.
  - unfold emailRecipient in Hc.
    destruct (email_recipient (action_config a)) as [[| |]|];
      try solve [trace_call];
      cbn [lift pbind] in Hc;
      (destruct (email_subject (action_config a)) as [subject|];
       [|trace_call]);
      match type of Hc with
      | context [truthy_string ?to && truthy_string subject] =>
        destruct (truthy_string to); cbn [andb] in Hc; [|trace_call]
      end;
      (destruct (truthy_string subject) eqn:Hs; [|trace_call]);
      rewrite (replacePlaceholders_no_payload N subject Hs) in Hc; trace_call.
Qed.

Lemma no_payload_only_fetch_witness :
  action_type MoreExamples.hook_rule = webhook
  /\ exists u,
       url (action_config MoreExamples.hook_rule) = Some u
       /\ Fetch "https://example.org/hook"
            {| body_automation := "Hook"; body_trigger := scheduled_time;
               body_data := None |}
          = Fetch u {| body_automation := name MoreExamples.hook_rule;
                       body_trigger := trigger_type MoreExamples.hook_rule;
                       body_data := None |}.
Proof.
  apply (no_payload_only_fetch Examples.no_toString).
  cbn. apply calls_here.
Defined.

(** X3, sending an email. A [send_email] rule calls the email handler
    only with a recipient that was resolved and is not empty, for a
    configured subject that is not empty, and with the subject and the
    body that substitution gives. When the recipient is resolved but it
    or the subject is missing or empty, the rule only prints the warning
    that no recipient was found; when resolving the recipient throws, it
    only prints the failure. *)
Theorem send_email_precondition :
  forall (N : number -> string) (a : Automation) (data : any),
    action_type a = send_email ->
    (forall to subject body,
        calls (SendEmail to subject body) (executeAction N a data) ->
        emailRecipient a data = Ok (Some to) /\ to <> ""
        /\ exists raw,
             email_subject (action_config a) = Some raw /\ raw <> ""
             /\ replacePlaceholders N raw data = Ok subject
             /\ replacePlaceholders N
                  (or_str (email_body (action_config a)) "") data = Ok body)
    /\ (forall r,
          emailRecipient a data = Ok r ->
          truthy truthy_string r
          && truthy truthy_string (email_subject (action_config a)) = false ->
          executeAction N a data
          = console_warn ("Automation " ++ quoted (name a)
                          ++ " skipped: No email recipient found."))
    /\ (forall e,
          emailRecipient a data = Throw e ->
          executeAction N a data
          = console_error
              ("Failed to execute automation " ++ quoted (name a) ++ ":") e).
Proof.
  intros N a data Hkind. unfold executeAction. rewrite Hkind.
  split; [|split].
  - intros to subject body Hc.
    destruct (emailRecipient a data) as [[r|]|e]; try solve [trace_call].
    cbn [lift pbind] in Hc.
    destruct (email_subject (action_config a)) as [raw|]; [|trace_call].
    destruct (truthy_string r) eqn:Hr; cbn [andb] in Hc; [|trace_call].
    destruct (truthy_string raw) eqn:Hraw; [|trace_call].
    destruct (replacePlaceholders N raw data) as [s1|e1] eqn:Hs;
      [|trace_call].
    destruct (replacePlaceholders N
                (or_str (email_body (action_config a)) "") data)
      as [b1|e2] eqn:Hb; [|trace_call].
    trace_call.
    split; [reflexivity|]. split; [apply truthy_string_nonempty; exact Hr|].
    exists raw. split; [reflexivity|].
    split; [apply truthy_string_nonempty; exact Hraw|].
    split; [exact Hs|reflexivity].
  - intros r Hr Hfalse. rewrite Hr. cbn [lift pbind].
    destruct r as [to|], (email_subject (action_config a)) as [raw|];
      cbn [truthy] in Hfalse; try reflexivity.
    rewrite Hfalse. reflexivity.
  - intros e He. rewrite He. reflexivity.
Qed.

Lemma send_email_precondition_witness :
  executeAction Examples.no_toString
    (MoreExamples.email_rule (Some custom) (Some "") (Some "Welcome"))
    (Some (MoreExamples.customer_record "Bob" "bob@example.org"))
  = console_warn ("Automation " ++ quoted "Mail"
                  ++ " skipped: No email recipient found.").
Proof.
  apply (proj1 (proj2 (send_email_precondition Examples.no_toString
                         (MoreExamples.email_rule (Some custom) (Some "")
                            (Some "Welcome"))
                         (Some (MoreExamples.customer_record "Bob"
                                  "bob@example.org"))
                         eq_refl)) (Some "")); reflexivity.
Defined.

(** X4, deducting inventory. An [update_inventory] rule calls the
    inventory handler exactly when the payload is a record that has the
    property [estimateNumber], be it with a string, with the empty
    string or with undefined, and it passes the payload itself; once the
    promise of the handler is fulfilled it prints the job number, which
    reads [undefined] when the property holds nothing. On a record
    without the property it only prints a warning that the rule was
    skipped, and without a payload it only prints the failure of the
    [in] test. *)
Theorem update_inventory_precondition :
  forall (N : number -> string) (a : Automation) (data : any),
    action_type a = update_inventory ->
    (forall job,
        calls (DeductInventoryForJob job) (executeAction N a data) ->
        data = Some job /\ Data.has_estimateNumber job = true)
    /\ (forall job,
          data = Some job -> Data.has_estimateNumber job = true ->
          forall H (handlers : ActionHandlers H) (globals : Globals H) (h : H),
            match deductInventoryForJob handlers job h with
            | (Threw e, h1) =>
              run handlers globals (executeAction N a data) h
              = ([Called (DeductInventoryForJob job);
                  Printed Error
                    ("Failed to execute automation " ++ quoted (name a) ++ ":")
                    (Some e)],
                 Completed (Ok tt), h1)
            | (Returned, h1) =>
              exists k,
                run handlers globals (executeAction N a data) h
                = ([Called (DeductInventoryForJob job)], Suspended k, h1)
                /\ forall h2,
                     run handlers globals (k Fulfilled) h2
                     = ([Printed Log
                           ("Inventory updated for job "
                            ++ interpolate (Data.estimateNumber job)) None],
                        Completed (Ok tt), h2)
            end)
    /\ (forall job,
          data = Some job -> Data.has_estimateNumber job = false ->
          executeAction N a data
          = console_warn
              ("Automation " ++ quoted (name a)
               ++ " skipped: 'update_inventory' action can only be triggered by job-related events."))
    /\ (data = None ->
        executeAction N a data
        = console_error
            ("Failed to execute automation " ++ quoted (name a) ++ ":")
            (TypeError_in "estimateNumber")).
Proof.
  intros N a data Hkind. unfold executeAction. rewrite Hkind.
  split; [|split; [|split]].
  - intros job Hc. destruct data as [d|]; [|trace_call].
    destruct (Data.has_estimateNumber d) eqn:Hn; [|trace_call].
    trace_call. split; [reflexivity | exact Hn].
  - intros job -> Hn H handlers globals h. rewrite Hn. cbn.
    destruct (deductInventoryForJob handlers job h) as [[e|] h1].
    + reflexivity.
    + eexists. split; [reflexivity|]. intros h2. reflexivity.
  - intros job -> Hn. rewrite Hn. reflexivity.
  - intros ->. reflexivity.
Qed.

Lemma update_inventory_precondition_witness :
  exists k,
    run Examples.willing_handlers Examples.some_globals
      (executeAction Examples.no_toString (Examples.bare_rule update_inventory)
         (Some MoreExamples.unnumbered_job)) tt
    = ([Called (DeductInventoryForJob MoreExamples.unnumbered_job)],
       Suspended k, tt)
    /\ forall h2,
         run Examples.willing_handlers Examples.some_globals (k Fulfilled) h2
         = ([Printed Log "Inventory updated for job undefined" None],
            Completed (Ok tt), h2).
Proof.
  apply (proj1 (proj2 (update_inventory_precondition Examples.no_toString
                         (Examples.bare_rule update_inventory)
                         (Some MoreExamples.unnumbered_job) eq_refl))
           MoreExamples.unnumbered_job eq_refl eq_refl unit
           Examples.willing_handlers Examples.some_globals tt).
Defined.

(** X5, the outcomes of a webhook. A webhook rule with a url makes one
    request to the url, with the rule's name, its trigger kind and the
    payload as it is. When [fetch] throws, or its promise is rejected, the
    rule prints that the webhook failed, with the reason, and nothing
    more: the failure does not reach the outer handler. When the promise
    is fulfilled it prints that the webhook was sent. *)
Theorem webhook_outcomes :
  forall (N : number -> string) (a : Automation) (data : any) (u : string),
    action_type a = webhook ->
    url (action_config a) = Some u -> u <> "" ->
    forall H (handlers : ActionHandlers H) (globals : Globals H) (h : H),
      let body := {| body_automation := name a;
                     body_trigger := trigger_type a;
                     body_data := data |} in
      let failed :=
        "Webhook for automation " ++ quoted (name a) ++ " failed:" in
      match fetch globals u body h with
      | (Threw e, h1) =>
        run handlers globals (executeAction N a data) h
        = ([Called (Fetch u body); Printed Error failed (Some e)],
           Completed (Ok tt), h1)
      | (Returned, h1) =>
        exists k,
          run handlers globals (executeAction N a data) h
          = ([Called (Fetch u body)], Suspended k, h1)
          /\ (forall h2,
                run handlers globals (k Fulfilled) h2
                = ([Printed Log ("Webhook sent successfully for "
                                 ++ quoted (name a)) None],
                   Completed (Ok tt), h2))
          /\ (forall e h2,
                run handlers globals (k (Rejected e)) h2
                = ([Printed Error failed (Some e)], Completed (Ok tt), h2))
      end.
Proof.
  intros N a data u Hkind Hurl Hu H handlers globals h. cbv zeta.
  unfold executeAction. rewrite Hkind, Hurl, (truthy_string_true u Hu).
  cbn. destruct (fetch globals u _ h) as [[e|] h1].
  - reflexivity.
  - eexists. split; [reflexivity|]. split; intros; reflexivity.
Qed.

Lemma webhook_outcomes_witness :
  exists k,
    run Examples.willing_handlers Examples.some_globals
      (executeAction Examples.no_toString MoreExamples.hook_rule None) tt
    = ([Called (Fetch "https://example.org/hook"
                  {| body_automation := "Hook"; body_trigger := scheduled_time;
                     body_data := None |})],
       Suspended k, tt)
    /\ (forall h2,
          run Examples.willing_handlers Examples.some_globals (k Fulfilled) h2
          = ([Printed Log ("Webhook sent successfully for " ++ quoted "Hook")
                None],
             Completed (Ok tt), h2))
    /\ (forall e h2,
          run Examples.willing_handlers Examples.some_globals (k (Rejected e)) h2
          = ([Printed Error ("Webhook for automation " ++ quoted "Hook"
                             ++ " failed:") (Some e)],
             Completed (Ok tt), h2)).
Proof.
  apply (webhook_outcomes Examples.no_toString MoreExamples.hook_rule None
           "https://example.org/hook" eq_refl eq_refl
           ltac:(discriminate) unit Examples.willing_handlers
           Examples.some_globals tt).
Defined.

End MoreActions.




(** *** More on the dispatch pass *)

Module MorePass.
Import JS Types Effects Engine.
Local Open Scope list_scope.

Lemma subsequence_nil_l {A} (m : list A) : More.subsequence [] m.
Proof. induction m; constructor; assumption. Qed.

Lemma subsequence_length {A} (l m : list A) :
  More.subsequence l m -> List.length l <= List.length m.
Proof. induction 1; cbn; lia. Qed.

Lemma filter_length_le {A} (f g : A -> bool) (l : list A) :
  (forall a, f a = true -> g a = true) ->
  List.length (filter f l) <= List.length (filter g l).
Proof.
  intros Hfg. induction l as [|a l IH]; cbn; [lia|].
  destruct (f a) eqn:Ef.
  - rewrite (Hfg a Ef). cbn. lia.
  - destruct (g a); cbn; lia.
Qed.

Lemma listens_enabled (kind : TriggerType) (a : Automation) :
  More.listens kind a = true -> is_enabled a = true.
Proof. unfold More.listens. intros E. apply andb_true_iff in E. apply E. Qed.

Lemma listens_kind (kind : TriggerType) (a : Automation) :
  More.listens kind a = true -> trigger_type a = kind.
Proof.
  unfold More.listens. intros E. apply andb_true_iff in E.
  destruct E as [_ E]. destruct (trigger_type a), kind; try discriminate E;
    reflexivity.
Qed.

(** Without a payload the check for [job_created] passes on a rule
    without bounds, and throws on any other. *)
Lemma shouldRun_job_created_no_payload (a : Automation) :
  shouldRun job_created a None
  = if More.unbounded a then Ok true else Throw (TypeError_read "costsData").
Proof.
  unfold shouldRun, check_bound, More.unbounded, truthy.
  destruct (job_value_min (trigger_config a)) as [lo|],
           (job_value_max (trigger_config a)) as [hi|];
    cbn [andb negb bind jobValue];
    try destruct (truthy_number lo); try destruct (truthy_number hi);
    reflexivity.
Qed.

(** A rule without bounds passes the check for [job_created] on every
    payload. *)
Lemma shouldRun_job_created_unbounded (a : Automation) (data : any) :
  More.unbounded a = true -> shouldRun job_created a data = Ok true.
Proof.
  unfold shouldRun, check_bound, More.unbounded, truthy.
  destruct (job_value_min (trigger_config a)) as [lo|],
           (job_value_max (trigger_config a)) as [hi|];
    cbn [andb negb bind];
    try destruct (truthy_number lo); try destruct (truthy_number hi);
    cbn; intros E; try discriminate E; reflexivity.
Qed.

Section Pass.

Variable N : number -> string.
Variable H : Type.
Variable handlers : ActionHandlers H.
Variable globals : Globals H.

Local Abbreviation dispatch := (dispatch N handlers globals).
Local Abbreviation call_executeAction := (call_executeAction N handlers globals).
Local Abbreviation processAutomations := (processAutomations N handlers globals).
Local Abbreviation dispatch_all := (Spec.dispatch_all N handlers globals).

Lemma for_of_app (body : Automation -> world H -> result unit * world H)
    (l1 l2 : list Automation) :
  forall w,
    for_of (l1 ++ l2) body w
    = match for_of l1 body w with
      | (Ok _, w1) => for_of l2 body w1
      | (Throw e, w1) => (Throw e, w1)
      end.
Proof.
  induction l1 as [|a l1 IH]; intros w; cbn [app for_of]; [reflexivity|].
  destruct (body a w) as [[u|e] w']; [apply IH | reflexivity].
Qed.

(** A dispatch prints the line that announces the rule, and whatever
    else it prints or calls comes after what was there. *)
Lemma dispatch_trace (a : Automation) (data : any) (w : world H) :
  exists evs,
    trace (dispatch a data w)
    = trace w ++ Printed Log ("Running automation: " ++ name a)%string None :: evs.
Proof.
  assert (Hc : forall w1 : world H,
             exists evs, trace (call_executeAction a data w1) = trace w1 ++ evs).
  { intros w1. unfold Engine.call_executeAction.
    destruct (run handlers globals (executeAction N a data) (outside w1))
      as [[evs s] h]. exists evs. reflexivity. }
  unfold Engine.dispatch.
  destruct (delay_minutes (action_config a)) as [delay|];
    [destruct (truthy_number delay && gt delay (num 0))|].
  - exists []. reflexivity.
  - destruct (Hc (print Log ("Running automation: " ++ name a)%string w))
      as [evs ->].
    exists evs. cbn. rewrite <- app_assoc. reflexivity.
  - destruct (Hc (print Log ("Running automation: " ++ name a)%string w))
      as [evs ->].
    exists evs. cbn. rewrite <- app_assoc. reflexivity.
Qed.

(** What a pass adds, however it ends. *)
Lemma pass_adds (kind : TriggerType) (data : any) (R : list Automation) :
  forall w, exists evs new,
    trace (snd (processAutomations kind data R w)) = trace w ++ evs
    /\ dispatched (snd (processAutomations kind data R w)) = dispatched w ++ new
    /\ More.subsequence (map rule new) (filter (More.listens kind) R)
    /\ Forall (fun d => payload d = data) new
    /\ Forall (Spec.contained N) new.
Proof.
  unfold Engine.processAutomations, More.listens.
  induction R as [|a R IH]; intros w; cbn [filter].
  - exists [], []. cbn. rewrite !app_nil_r. repeat split; constructor.
  - destruct (is_enabled a && TriggerType_eqb (trigger_type a) kind);
      [|apply IH].
    cbn [for_of]. destruct (shouldRun kind a data) as [[|]|e].
    + destruct (dispatch_trace a data w) as [evs1 Hevs1].
      destruct (Pass.dispatch_dispatched N H handlers globals a data w)
        as [m [Hm Hc]].
      destruct (IH (dispatch a data w)) as [evs [new [Ht [Hd [Hs [Hp Hn]]]]]].
      eexists. exists ({| rule := a; payload := data; how := m |} :: new).
      rewrite Ht, Hevs1, Hd, Hm, <- !app_assoc. cbn.
      split; [reflexivity|]. split; [reflexivity|].
      split; [constructor; exact Hs|].
      split; constructor; auto.
    + destruct (IH w) as [evs [new [Ht [Hd [Hs [Hp Hn]]]]]].
      exists evs, new. repeat split; auto. constructor. exact Hs.
    + exists [], []. cbn. rewrite !app_nil_r.
      repeat split; try constructor. apply subsequence_nil_l.
Qed.

Lemma subsequence_Forall {A} (P : A -> Prop) (l m : list A) :
  More.subsequence l m -> Forall P m -> Forall P l.
Proof.
  induction 1; intros Hm; [constructor| |].
  - inversion Hm; subst. constructor; auto.
  - inversion Hm; subst. auto.
Qed.

(** X6, what a pass never does. On every rule set and every event, also
    one that makes the pass throw, the pass only adds to what was printed
    and called and to the rules that were run; the rules it runs are
    among the enabled rules of the kind of the event, each entry of the
    rule set at most once and in the order of the rule set; each is given the payload of the
    event, and the promise of none of them is ever rejected. *)
Theorem only_listening_rules_run :
  forall (kind : TriggerType) (data : any) (R : list Automation) (w : world H),
  exists evs new,
    trace (snd (processAutomations kind data R w)) = trace w ++ evs
    /\ dispatched (snd (processAutomations kind data R w)) = dispatched w ++ new
    /\ More.subsequence (map rule new) (filter (More.listens kind) R)
    /\ Forall (fun d => is_enabled (rule d) = true
                        /\ trigger_type (rule d) = kind
                        /\ payload d = data
                        /\ Spec.contained N d) new.
Proof.
  intros kind data R w.
  destruct (pass_adds kind data R w) as [evs [new [Ht [Hd [Hs [Hp Hn]]]]]].
  exists evs, new. repeat split; try assumption.
  assert (Hl : Forall (fun a => More.listens kind a = true) (map rule new)).
  { apply (subsequence_Forall _ _ _ Hs). apply Forall_forall.
    intros a Ha. apply filter_In in Ha. apply Ha. }
  rewrite Forall_map in Hl.
  rewrite Forall_forall in *. intros d Hin.
  split; [apply (listens_enabled kind), Hl, Hin|].
  split; [apply listens_kind, Hl, Hin|].
  split; [apply Hp, Hin | apply Hn, Hin].
Qed.

(** X7, a pass over two rule sets, one after the other. The pass over
    [R1 ++ R2] is the pass over [R1] followed, unless that one throws, by
    the pass over [R2] from where the first one ended. *)
Theorem pass_over_appended_rules :
  forall (kind : TriggerType) (data : any) (R1 R2 : list Automation)
         (w : world H),
    processAutomations kind data (R1 ++ R2) w
    = match processAutomations kind data R1 w with
      | (Ok _, w1) => processAutomations kind data R2 w1
      | (Throw e, w1) => (Throw e, w1)
      end.
Proof.
  intros kind data R1 R2 w. unfold Engine.processAutomations.
  rewrite filter_app. apply for_of_app.
Qed.

(** X8, the kinds that do not look at the payload. For an event of a kind
    other than [job_created] and [job_status_updated] the pass ends
    normally and runs every enabled rule of the kind, in order, whatever
    the payload is, a missing one included, and whatever the rules'
    trigger configurations hold. *)
Theorem payload_blind_kinds :
  forall (kind : TriggerType) (data : any) (R : list Automation) (w : world H),
    kind <> job_created -> kind <> job_status_updated ->
    processAutomations kind data R w
    = (Ok tt, dispatch_all data (filter (More.listens kind) R) w).
Proof.
  intros kind data R w H1 H2. revert w.
  unfold Engine.processAutomations, Spec.dispatch_all, More.listens.
  induction R as [|a R IH]; intros w; cbn [filter]; [reflexivity|].
  destruct (is_enabled a && TriggerType_eqb (trigger_type a) kind);
    [|apply IH].
  cbn [for_of fold_left].
  rewrite (Matcher.shouldRun_other kind a data H1 H2). apply IH.
Qed.

(** X9, a status event without a payload. The pass for
    [job_status_updated] with a payload that is undefined or null throws
    a TypeError, on reading the status, as soon as there is an enabled
    rule of that kind, and has done nothing then; with no such rule it
    ends normally, having done nothing. *)
Theorem status_event_without_payload :
  forall (R : list Automation) (w : world H),
    processAutomations job_status_updated None R w
    = (if existsb (More.listens job_status_updated) R
       then Throw (TypeError_read "status") else Ok tt,
       w).
Proof.
  intros R w. unfold Engine.processAutomations, More.listens.
  induction R as [|a R IH]; cbn [filter existsb]; [reflexivity|].
  destruct (is_enabled a && TriggerType_eqb (trigger_type a) job_status_updated);
    cbn [orb]; [reflexivity | exact IH].
Qed.

(** X10, a job event without a payload. The pass for [job_created] with
    a payload that is undefined or null runs the enabled rules of that
    kind up to the first one with a bound, each without a payload; when
    there is a rule with a bound it throws a TypeError there, on reading
    the costs, and the later rules are not run; otherwise it ends
    normally. *)
Theorem job_event_without_payload :
  forall (R : list Automation) (w : world H),
    processAutomations job_created None R w
    = (if forallb More.unbounded (filter (More.listens job_created) R)
       then Ok tt else Throw (TypeError_read "costsData"),
       dispatch_all None
         (More.take_while More.unbounded (filter (More.listens job_created) R))
         w).
Proof.
  intros R. unfold Engine.processAutomations, Spec.dispatch_all, More.listens.
  induction R as [|a R IH]; intros w; cbn [filter]; [reflexivity|].
  destruct (is_enabled a && TriggerType_eqb (trigger_type a) job_created);
    [|apply IH].
  cbn [for_of forallb More.take_while].
  rewrite shouldRun_job_created_no_payload.
  destruct (More.unbounded a); cbn [andb fold_left]; [apply IH | reflexivity].
Qed.

(** States that are alike stay alike when a rule and its relabelled
    version are dispatched. *)
Lemma dispatch_alike (i : option number) (d : option string)
    (c : option (list Condition)) (a : Automation) (data : any)
    (w w' : world H) :
  More.alike w w' ->
  More.alike (dispatch a data w) (dispatch (More.relabel i d c a) data w').
Proof.
  intros [Ho [Ht Hd]].
  assert (Hcall : forall w1 w1' : world H,
             More.alike w1 w1' ->
             More.alike (call_executeAction a data w1)
                        (call_executeAction (More.relabel i d c a) data w1')).
  { intros w1 w1' [Ho1 [Ht1 Hd1]]. unfold Engine.call_executeAction.
    change (executeAction N (More.relabel i d c a) data)
      with (executeAction N a data).
    rewrite <- Ho1.
    destruct (run handlers globals (executeAction N a data) (outside w1))
      as [[evs s] h].
    unfold More.alike, More.deeds in *. cbn. rewrite !map_app, Ht1, Hd1.
    repeat split; reflexivity. }
  assert (Hprint : More.alike
                     (print Log ("Running automation: " ++ name a)%string w)
                     (print Log ("Running automation: " ++ name a)%string w')).
  { unfold More.alike. cbn. rewrite Ht. auto. }
  unfold Engine.dispatch.
  change (delay_minutes (action_config (More.relabel i d c a)))
    with (delay_minutes (action_config a)).
  change (name (More.relabel i d c a)) with (name a).
  destruct (delay_minutes (action_config a)) as [delay|];
    [destruct (truthy_number delay && gt delay (num 0))|];
    try (apply Hcall; exact Hprint).
  unfold More.alike, More.deeds in *. cbn. rewrite !map_app, Ht, Hd.
  repeat split; auto.
Qed.

Lemma pass_alike (fi : Automation -> option number)
    (fd : Automation -> option string)
    (fc : Automation -> option (list Condition))
    (kind : TriggerType) (data : any) (R : list Automation) :
  forall w w' : world H,
    More.alike w w' ->
    fst (processAutomations kind data
           (map (fun a => More.relabel (fi a) (fd a) (fc a) a) R) w')
    = fst (processAutomations kind data R w)
    /\ More.alike
         (snd (processAutomations kind data R w))
         (snd (processAutomations kind data
                 (map (fun a => More.relabel (fi a) (fd a) (fc a) a) R) w')).
Proof.
  unfold Engine.processAutomations.
  induction R as [|a R IH]; intros w w' Hw; cbn [map filter].
  - split; [reflexivity | exact Hw].
  - change (is_enabled (More.relabel (fi a) (fd a) (fc a) a))
      with (is_enabled a).
    change (trigger_type (More.relabel (fi a) (fd a) (fc a) a))
      with (trigger_type a).
    destruct (is_enabled a && TriggerType_eqb (trigger_type a) kind);
      [|apply IH; exact Hw].
    cbn [for_of].
    change (shouldRun kind (More.relabel (fi a) (fd a) (fc a) a) data)
      with (shouldRun kind a data).
    destruct (shouldRun kind a data) as [[|]|e].
    + apply IH. apply dispatch_alike. exact Hw.
    + apply IH. exact Hw.
    + split; [reflexivity | exact Hw].
Qed.

(** X11, what the engine does not read. The [id], the [description] and
    the generic [conditions] of a rule play no part in a pass: with these
    three changed at will in every rule, the pass ends in the same way,
    prints and calls the same, leaves the same state outside, and runs
    its rules with the same payloads, timers and outcomes. *)
Theorem labels_and_conditions_are_not_read :
  forall (fi : Automation -> option number) (fd : Automation -> option string)
         (fc : Automation -> option (list Condition))
         (kind : TriggerType) (data : any) (R : list Automation) (w : world H),
    fst (processAutomations kind data
           (map (fun a => More.relabel (fi a) (fd a) (fc a) a) R) w)
    = fst (processAutomations kind data R w)
    /\ More.alike
         (snd (processAutomations kind data R w))
         (snd (processAutomations kind data
                 (map (fun a => More.relabel (fi a) (fd a) (fc a) a) R) w)).
Proof.
  intros fi fd fc kind data R w. apply pass_alike.
  unfold More.alike. auto.
Qed.

(** X12, the count of the banner bounds a pass. A pass runs at most as
    many rules as the page counts as active, and when the page counts
    none, the pass does nothing at all. *)
Theorem pass_within_active_count :
  forall (kind : TriggerType) (data : any) (R : list Automation) (w : world H),
    List.length (dispatched (snd (processAutomations kind data R w)))
    <= List.length (dispatched w) + Page.activeCount R
    /\ (Page.activeCount R = 0 -> processAutomations kind data R w = (Ok tt, w)).
Proof.
  intros kind data R w. split.
  - destruct (pass_adds kind data R w) as [evs [new [_ [Hd [Hs _]]]]].
    rewrite Hd, length_app. apply subsequence_length in Hs.
    rewrite length_map in Hs.
    pose proof (filter_length_le (More.listens kind) (fun a => is_enabled a) R
                  (listens_enabled kind)) as Hle.
    unfold Page.activeCount. lia.
  - unfold Page.activeCount, Engine.processAutomations. intros Hz.
    replace (filter (fun a => is_enabled a && TriggerType_eqb (trigger_type a) kind) R)
      with (@nil Automation); [reflexivity|].
    symmetry. apply length_zero_iff_nil.
    pose proof (filter_length_le (More.listens kind) (fun a => is_enabled a) R
                  (listens_enabled kind)) as Hle.
    unfold More.listens in Hle. lia.
Qed.

(** X13, a rule that is toggled off. Toggling twice gives the rule back;
    an enabled rule, once toggled, is counted no more as active, and a
    pass over the rule set goes as if the rule were not there. *)
Theorem toggled_off_rule_is_out :
  forall (a : Automation) (kind : TriggerType) (data : any)
         (R1 R2 : list Automation) (w : world H),
    Page.handleToggle (Page.handleToggle a) = a
    /\ (is_enabled a = true ->
        processAutomations kind data (R1 ++ Page.handleToggle a :: R2) w
        = processAutomations kind data (R1 ++ R2) w
        /\ Page.activeCount (R1 ++ Page.handleToggle a :: R2) + 1
           = Page.activeCount (R1 ++ a :: R2)).
Proof.
  intros a kind data R1 R2 w. split.
  - destruct a. unfold Page.handleToggle. cbn. rewrite negb_involutive.
    reflexivity.
  - intros He. split.
    + unfold Engine.processAutomations. rewrite !filter_app. cbn [filter].
      change (is_enabled (Page.handleToggle a)) with (negb (is_enabled a)).
      rewrite He. reflexivity.
    + unfold Page.activeCount. rewrite !filter_app, !length_app. cbn [filter].
      change (is_enabled (Page.handleToggle a)) with (negb (is_enabled a)).
      rewrite He. cbn. lia.
Qed.

End Pass.

Lemma payload_blind_kinds_witness :
  processAutomations Examples.no_toString Examples.willing_handlers
    Examples.some_globals new_customer None
    [Examples.rule_min_500; Examples.bare_rule send_sms]
    Examples.empty_world
  = (Ok tt,
     Spec.dispatch_all Examples.no_toString Examples.willing_handlers
       Examples.some_globals None
       (filter (More.listens new_customer)
          [Examples.rule_min_500; Examples.bare_rule send_sms])
       Examples.empty_world).
Proof.
  apply payload_blind_kinds; discriminate.
Defined.

Lemma pass_within_active_count_witness :
  processAutomations Examples.no_toString Examples.willing_handlers
    Examples.some_globals new_customer None
    [Page.handleToggle (Examples.bare_rule send_sms)] Examples.empty_world
  = (Ok tt, Examples.empty_world).
Proof.
  apply (proj2 (pass_within_active_count Examples.no_toString unit
                  Examples.willing_handlers Examples.some_globals
                  new_customer None
                  [Page.handleToggle (Examples.bare_rule send_sms)]
                  Examples.empty_world)).
  reflexivity.
Defined.

Lemma toggled_off_rule_is_out_witness :
  processAutomations Examples.no_toString Examples.willing_handlers
    Examples.some_globals new_customer None
    ([Examples.bare_rule webhook]
     ++ Page.handleToggle (Examples.bare_rule send_sms) :: [])
    Examples.empty_world
  = processAutomations Examples.no_toString Examples.willing_handlers
      Examples.some_globals new_customer None
      ([Examples.bare_rule webhook] ++ []) Examples.empty_world
  /\ Page.activeCount ([Examples.bare_rule webhook]
                       ++ Page.handleToggle (Examples.bare_rule send_sms) :: [])
     + 1
     = Page.activeCount ([Examples.bare_rule webhook]
                         ++ Examples.bare_rule send_sms :: []).
Proof.
  apply (proj2 (toggled_off_rule_is_out Examples.no_toString unit
                  Examples.willing_handlers Examples.some_globals
                  (Examples.bare_rule send_sms) new_customer None
                  [Examples.bare_rule webhook] [] Examples.empty_world)).
  reflexivity.
Defined.

End MorePass.

(** *** More on replacePlaceholders *)

Module MorePlaceholders.
Import JS Types Effects Engine.

(** A pass of [replace] for a bracketed token keeps a string without an
    opening bracket, whatever is to be put in. *)
Lemma replace_without_bracket (n v text : string) :
  Spec.has_char "[" text = false ->
  replace (Spec.bracketed n) v text = text.
Proof.
  intros Ht. unfold replace. rewrite Strings.replace_from_scan.
  rewrite <- (Strings.append_nil_r text) at 1.
  rewrite Strings.scan_text; [apply Strings.append_nil_r | | exact Ht].
  intros before c s Hc. unfold Spec.replace_match.
  rewrite (Strings.prefix_bracketed_head n c s Hc). reflexivity.
Qed.

(** X14, templates without a token. A template that opens no bracket is
    returned as it is on every record, whatever the record holds; without
    a payload it is not returned at all, unless it is empty: reading the
    payload throws a TypeError. *)
Theorem template_without_bracket :
  forall (N : number -> string) (text : string),
    (Spec.has_char "[" text = false ->
     forall d, replacePlaceholders N text (Some d) = Ok text)
    /\ (text <> "" ->
        replacePlaceholders N text None = Throw (TypeError_read "calcData"))
    /\ (forall data, replacePlaceholders N "" data = Ok "").
Proof.
  intros N text. split; [|split].
  - intros Ht d. rewrite Placeholders.replacePlaceholders_passes.
    rewrite (replace_without_bracket "customer_name" _ text Ht).
    rewrite (replace_without_bracket "customer_address" _ text Ht).
    rewrite (replace_without_bracket "job_number" _ text Ht).
    rewrite (replace_without_bracket "job_value" _ text Ht).
    reflexivity.
  - intros Hne. destruct text as [|c text]; [contradiction|reflexivity].
  - intros data. reflexivity.
Qed.

Lemma template_without_bracket_witness :
  replacePlaceholders Examples.no_toString "Call back $& soon]"
    (Some (Examples.job_of "$&" (Some "[customer_name]")))
  = Ok "Call back $& soon]".
Proof.
  apply (proj1 (template_without_bracket Examples.no_toString
                  "Call back $& soon]")).
  reflexivity.
Defined.

End MorePlaceholders.

(** *** The page and the engine *)

Module MorePage.
Import JS Types Effects Engine.

Lemma gt_zero_truthy (m : number) :
  gt m (num 0) = true -> truthy_number m = true.
Proof.
  change (num 0) with (S754_zero false).
  destruct m as [s|s| |s mm e]; cbn; intros E; try discriminate E; reflexivity.
Qed.

Lemma lt_zero_truthy (m : number) :
  lt m (num 0) = true -> truthy_number m = true /\ gt m (num 0) = false.
Proof.
  change (num 0) with (S754_zero false).
  destruct m as [s|[|]| |[|] mm e]; cbn; intros E; try discriminate E;
    split; reflexivity.
Qed.

Lemma description_ends_in_delay (N : number -> string) (a : Automation) :
  Page.getActionDescription N a
  = Page.getActionDescription N (with_delay_minutes None a) ++ Page.delay N a.
Proof.
  unfold Page.getActionDescription.
  change (Page.delay N (with_delay_minutes None a)) with "".
  change (action_type (with_delay_minutes None a)) with (action_type a).
  cbn [with_delay_minutes action_config task_title task_priority
       email_recipient custom_email email_subject sms_recipient custom_phone
       new_status].
  destruct (action_type a); rewrite !Strings.append_assoc; reflexivity.
Qed.

Section Page.

Variable N : number -> string.
Variable H : Type.
Variable handlers : ActionHandlers H.
Variable globals : Globals H.

Local Abbreviation dispatch := (dispatch N handlers globals).
Local Abbreviation call_executeAction := (call_executeAction N handlers globals).

(** X15, the delay that the page shows and the timer of the engine. The
    description of an action is the description of the action without
    delay, followed by the note of the delay. When the note is empty the
    engine executes the rule within the pass. When the delay is positive
    the note shows it, in minutes, and the engine sets the timer. When
    the delay is negative the note shows it all the same, and the engine
    executes the rule within the pass, without a timer. *)
Theorem delay_note_and_timer :
  forall (a : Automation),
    Page.getActionDescription N a
    = Page.getActionDescription N (with_delay_minutes None a) ++ Page.delay N a
    /\ (Page.delay N a = "" ->
        forall data w,
          dispatch a data w
          = call_executeAction a data
              (print Log ("Running automation: " ++ name a) w))
    /\ (forall m,
          delay_minutes (action_config a) = Some m -> gt m (num 0) = true ->
          Page.delay N a = " (after " ++ N m ++ "m)"
          /\ forall data w,
               dispatch a data w
               = setTimeout a data (mul (mul m (num 60)) (num 1000))
                   (print Log ("Running automation: " ++ name a) w))
    /\ (forall m,
          delay_minutes (action_config a) = Some m -> lt m (num 0) = true ->
          Page.delay N a = " (after " ++ N m ++ "m)"
          /\ forall data w,
               dispatch a data w
               = call_executeAction a data
                   (print Log ("Running automation: " ++ name a) w)).
Proof.
  intros a. split; [apply description_ends_in_delay|].
  unfold Page.delay, Engine.dispatch.
  destruct (delay_minutes (action_config a)) as [d|].
  - split; [|split].
    + destruct (truthy_number d); [|reflexivity].
      cbn [append]. discriminate.
    + intros m Hm Hg. injection Hm as ->.
      rewrite (gt_zero_truthy m Hg), Hg. split; reflexivity.
    + intros m Hm Hl. injection Hm as ->.
      destruct (lt_zero_truthy m Hl) as [-> ->]. split; reflexivity.
  - split; [reflexivity|]. split; intros m Hm; discriminate Hm.
Qed.

End Page.

(** X16, a job rule that is described without a condition. The
    description of a [job_created] rule is the bare sentence, without a
    condition in brackets, exactly when neither bound of the rule is
    checked; the rule then matches every job event, on every payload,
    even a missing one. A rule that is described with a condition makes
    the check throw when the payload is missing. *)
Theorem plain_job_description :
  forall (N : number -> string) (a : Automation),
    trigger_type a = job_created ->
    (Page.getTriggerDescription N a = "When a new job is created"
     <-> More.unbounded a = true)
    /\ (More.unbounded a = true ->
        forall data, shouldRun job_created a data = Ok true)
    /\ (More.unbounded a = false ->
        shouldRun job_created a None = Throw (TypeError_read "costsData")).
Proof.
  intros N a Hk. split; [|split].
  - unfold Page.getTriggerDescription. rewrite Hk.
    unfold Page.jobConditions, More.unbounded, truthy.
    destruct (job_value_min (trigger_config a)) as [lo|],
             (job_value_max (trigger_config a)) as [hi|];
      try destruct (truthy_number lo); try destruct (truthy_number hi);
      cbn [app List.length Nat.eqb negb andb append];
      split; intros E; try reflexivity; discriminate E.
  - intros Hu data. apply MorePass.shouldRun_job_created_unbounded. exact Hu.
  - intros Hu. rewrite MorePass.shouldRun_job_created_no_payload, Hu.
    reflexivity.
Qed.

Lemma delay_note_and_timer_witness :
  Page.delay Examples.no_toString (Examples.delayed_rule (num 5))
  = " (after " ++ Examples.no_toString (num 5) ++ "m)"
  /\ forall data w,
       dispatch Examples.no_toString Examples.willing_handlers
         Examples.some_globals (Examples.delayed_rule (num 5)) data w
       = setTimeout (Examples.delayed_rule (num 5)) data
           (mul (mul (num 5) (num 60)) (num 1000))
           (print Log ("Running automation: "
                       ++ name (Examples.delayed_rule (num 5))) w).
Proof.
  apply (proj1 (proj2 (proj2 (delay_note_and_timer Examples.no_toString unit
                                Examples.willing_handlers Examples.some_globals
                                (Examples.delayed_rule (num 5)))))
           (num 5)); reflexivity.
Defined.

Lemma plain_job_description_witness :
  (Page.getTriggerDescription Examples.no_toString
     (Examples.a_rule "Any job" job_created Examples.no_trigger_config
        send_sms Examples.no_action_config)
   = "When a new job is created"
   <-> More.unbounded
         (Examples.a_rule "Any job" job_created Examples.no_trigger_config
            send_sms Examples.no_action_config) = true)
  /\ (More.unbounded
        (Examples.a_rule "Any job" job_created Examples.no_trigger_config
           send_sms Examples.no_action_config) = true ->
      forall data,
        shouldRun job_created
          (Examples.a_rule "Any job" job_created Examples.no_trigger_config
             send_sms Examples.no_action_config) data = Ok true)
  /\ (More.unbounded
        (Examples.a_rule "Any job" job_created Examples.no_trigger_config
           send_sms Examples.no_action_config) = false ->
      shouldRun job_created
        (Examples.a_rule "Any job" job_created Examples.no_trigger_config
           send_sms Examples.no_action_config) None
      = Throw (TypeError_read "costsData")).
Proof.
  apply (plain_job_description Examples.no_toString
           (Examples.a_rule "Any job" job_created Examples.no_trigger_config
              send_sms Examples.no_action_config)).
  reflexivity.
Defined.

End MorePage.
